(** * Clipboard history manager: the main-process history store and poller

    A shallow embedding of the Electron main process of the clipboard
    history manager (the current [main.js], with deduplication, pinning and
    the memory limit; the insertion and the clearing of the older [main.js]
    are in the module [Legacy]), and the properties of its history store.

    Conventions of the embedding.
    - The module-level variables [clipboardHistory], [lastClipboardContent],
      [mainWindow] and [clipboardMonitor] are the fields of [AppState];
      every handler is a function from state to state (and a result).
    - The operating-system clipboard is part of the state, since the
      handlers write it and the poller reads it.
    - [webContents.send('clipboard-updated', payload)] puts the payload in
      front of the [sent] field. The payload is serialized when it is sent,
      so a message holds the history as it was then.
    - A JavaScript string is held as the sequence of its UTF-8 bytes, so
      [Buffer.byteLength(content, 'utf-8')] is the length of that sequence
      and [===] on strings is equality.
    - [Date.now()] and [new Date().toISOString()] read the wall clock; the
      two readings are arguments of the function that makes them. The ISO
      rendering of a reading is represented by the reading itself.
    - Numbers are mathematical integers ([Z]). *)

From Stdlib Require Import ZArith String Ascii List Lia.
From stdpp Require Import base option list strings sorting pretty.
From Equations Require Import Equations.

Open Scope Z_scope.

(** ** Data model *)

Inductive ContentType := Text | Image.

#[global] Instance ContentType_eq_dec : EqDecision ContentType.
Proof. solve_decision. Defined.

(** An entry of [clipboardHistory]; the fields keep their JavaScript names
    ([item.id], [item.content], ...). *)
Module item.
Record t := mk {
  id : Z;
  content : string;
  type : ContentType;
  timestamp : Z;
  size : Z;
  pinned : bool
}.

(** [existing.timestamp = ...], [existing.id = ...], [item.pinned = ...] *)
Definition set_timestamp (v : Z) (it : t) : t :=
  mk (id it) (content it) (type it) v (size it) (pinned it).
Definition set_id (v : Z) (it : t) : t :=
  mk v (content it) (type it) (timestamp it) (size it) (pinned it).
Definition set_pinned (v : bool) (it : t) : t :=
  mk (id it) (content it) (type it) (timestamp it) (size it) v.
End item.

#[global] Instance item_eq_dec : EqDecision item.t.
Proof. solve_decision. Defined.

(** The payload of a ['clipboard-updated'] message. *)
Module update.
Record t := mk {
  history : list item.t;
  currentContent : option string;
  contentType : option ContentType;
  memoryUsage : Z
}.
End update.

(** What [clipboard.readImage()] gives: an empty image, or an image whose
    [toDataURL()] either returns a string or throws. *)
Inductive NativeImage :=
  | EmptyImage
  | ImageOf (dataURL : option string).

Definition isEmpty (img : NativeImage) : bool :=
  match img with EmptyImage => true | ImageOf _ => false end.

(** [None] stands for a thrown error. *)
Definition toDataURL (img : NativeImage) : option string :=
  match img with
  | EmptyImage => Some "data:image/png;base64,"%string
  | ImageOf d => d
  end.

(** The operating-system clipboard. *)
Record Clipboard := {
  readText : string;
  readImage : NativeImage
}.

Definition clipboard_clear : Clipboard :=
  {| readText := ""; readImage := EmptyImage |}.

Record AppState := {
  clipboardHistory : list item.t;
  lastClipboardContent : option string;
  mainWindow : bool;
  clipboardMonitor : bool;
  clipboard : Clipboard;
  sent : list update.t
}.

Definition set_clipboardHistory (h : list item.t) (st : AppState) : AppState :=
  {| clipboardHistory := h;
     lastClipboardContent := lastClipboardContent st;
     mainWindow := mainWindow st;
     clipboardMonitor := clipboardMonitor st;
     clipboard := clipboard st;
     sent := sent st |}.

Definition set_lastClipboardContent (v : option string) (st : AppState) : AppState :=
  {| clipboardHistory := clipboardHistory st;
     lastClipboardContent := v;
     mainWindow := mainWindow st;
     clipboardMonitor := clipboardMonitor st;
     clipboard := clipboard st;
     sent := sent st |}.

Definition set_mainWindow (v : bool) (st : AppState) : AppState :=
  {| clipboardHistory := clipboardHistory st;
     lastClipboardContent := lastClipboardContent st;
     mainWindow := v;
     clipboardMonitor := clipboardMonitor st;
     clipboard := clipboard st;
     sent := sent st |}.

Definition set_clipboardMonitor (v : bool) (st : AppState) : AppState :=
  {| clipboardHistory := clipboardHistory st;
     lastClipboardContent := lastClipboardContent st;
     mainWindow := mainWindow st;
     clipboardMonitor := v;
     clipboard := clipboard st;
     sent := sent st |}.

Definition set_clipboard (v : Clipboard) (st : AppState) : AppState :=
  {| clipboardHistory := clipboardHistory st;
     lastClipboardContent := lastClipboardContent st;
     mainWindow := mainWindow st;
     clipboardMonitor := clipboardMonitor st;
     clipboard := v;
     sent := sent st |}.

(** [mainWindow.webContents.send('clipboard-updated', u)] *)
Definition send (u : update.t) (st : AppState) : AppState :=
  {| clipboardHistory := clipboardHistory st;
     lastClipboardContent := lastClipboardContent st;
     mainWindow := mainWindow st;
     clipboardMonitor := clipboardMonitor st;
     clipboard := clipboard st;
     sent := u :: sent st |}.

(** ** The history store *)

(** [const MAX_MEMORY_BYTES = 500 * 1024 * 1024] *)
Definition MAX_MEMORY_BYTES : Z := 500 * 1024 * 1024.

(** [Buffer.byteLength(content, 'utf-8')] *)
Definition byteLength (content : string) : Z := Z.of_nat (String.length content).

(** [clipboardHistory.reduce((total, item) => total + item.size, 0)] *)
Definition getMemoryUsage (h : list item.t) : Z :=
  foldl (fun total it => total + item.size it) 0 h.

(** The [for] loop of [enforceMemoryLimit]: [scan h n] examines the indices
    [n - 1], [n - 2], ..., [0] and stops at the first entry that is not
    pinned; [None] is the [-1] that [removeIndex] keeps otherwise. *)
Fixpoint scan (h : list item.t) (n : nat) : option nat :=
  match n with
  | O => None
  | S i =>
      match h !! i with
      | Some it => if item.pinned it then scan h i else Some i
      | None => scan h i
      end
  end.

Definition removeIndex (h : list item.t) : option nat := scan h (length h).

Lemma scan_lt h n i : scan h n = Some i -> (i < n)%nat.
Proof.
  induction n as [|n IH]; simpl; [discriminate|].
  destruct (h !! n) as [it|].
  - destruct (item.pinned it).
    + intros H. apply IH in H. lia.
    + intros [= <-]. lia.
  - intros H. apply IH in H. lia.
Qed.

Lemma removeIndex_lt h i : removeIndex h = Some i -> (i < length h)%nat.
Proof. apply scan_lt. Qed.

(** One turn of the [while] loop of [enforceMemoryLimit]: [Some h'] when
    the condition holds and the body splices an entry out, leaving [h'];
    [None] when the loop ends, by its condition or by [break]. *)
Definition iteration (h : list item.t) : option (list item.t) :=
  if bool_decide (getMemoryUsage h > MAX_MEMORY_BYTES) then
    match removeIndex h with
    | Some i => Some (delete i h)
    | None => None
    end
  else None.

Lemma iteration_length h h' :
  iteration h = Some h' -> (length h' < length h)%nat.
Proof.
  unfold iteration. case_bool_decide; [|discriminate].
  destruct (removeIndex h) as [i|] eqn:Hi; [|discriminate].
  intros [= <-]. apply removeIndex_lt in Hi.
  rewrite length_delete; [lia|]. apply lookup_lt_is_Some. lia.
Qed.

(** A value together with the equation that says where it came from, so
    that the recursive call of [enforceMemoryLimit] knows the turn it
    follows. *)
Definition inspect {A} (a : A) : {b : A | a = b} := exist _ a eq_refl.

(** [enforceMemoryLimit()]: the loop runs its turns until one ends it. Every
    turn that goes on shortens the history, so the recursion is on its
    length. *)
Equations? enforceMemoryLimit (h : list item.t) : list item.t
  by wf (length h) lt :=
enforceMemoryLimit h with inspect (iteration h) := {
  | exist _ (Some h') Hturn => enforceMemoryLimit h'
  | exist _ None _ => h }.
Proof. by apply iteration_length. Qed.

(** The [if]/[else] that opens [addToHistory]: an entry with the same
    content is spliced out, stamped anew and put back in front; otherwise a
    new entry is put in front. [list_find] is [findIndex]: the first index,
    with its entry, whose content is [content]. *)
Definition unshifted (content : string) (type : ContentType)
    (t_stamp t_id : Z) (h : list item.t) : list item.t :=
  match list_find (fun it => item.content it = content) h with
  | Some (existingIndex, existing) =>
      let existing := item.set_timestamp t_stamp existing in
      let existing := item.set_id t_id existing in
      existing :: delete existingIndex h
  | None =>
      item.mk t_id content type t_stamp (byteLength content) false :: h
  end.

(** [addToHistory(content, type)]; [t_stamp] is the clock reading behind
    [new Date().toISOString()] and [t_id] the one [Date.now()] returns. *)
Definition addToHistory (content : string) (type : ContentType)
    (t_stamp t_id : Z) (st : AppState) : AppState :=
  let h := unshifted content type t_stamp t_id (clipboardHistory st) in
  let st := set_clipboardHistory (enforceMemoryLimit h) st in
  if mainWindow st then
    send (update.mk (clipboardHistory st) (Some content) (Some type)
            (getMemoryUsage (clipboardHistory st))) st
  else st.

(** ** IPC handlers *)

(** The object an IPC handler returns; a key the handler leaves out is
    [None]. *)
Module reply.
Record t := mk {
  success : bool;
  history : option (list item.t);
  memoryUsage : option Z;
  error : option string
}.
End reply.

(** What ['get-clipboard-history'] returns. *)
Module snapshot.
Record t := mk {
  history : list item.t;
  currentContent : option string;
  memoryUsage : Z
}.
End snapshot.

(** [ipcMain.handle('get-clipboard-history', ...)] *)
Definition get_clipboard_history (st : AppState) : snapshot.t :=
  snapshot.mk (clipboardHistory st) (lastClipboardContent st)
    (getMemoryUsage (clipboardHistory st)).

(** [ipcMain.handle('copy-to-clipboard', ...)]. [type] is [None] for a value
    that is neither ['text'] nor ['image']; [thrown] is the message of the
    error a clipboard call throws, if one does. *)
Definition copy_to_clipboard (content : string) (type : option ContentType)
    (thrown : option string) (st : AppState) : reply.t * AppState :=
  match thrown with
  | Some message => (reply.mk false None None (Some message), st)
  | None =>
      let st :=
        match type with
        | Some Text =>
            set_clipboard {| readText := content; readImage := EmptyImage |} st
        | Some Image =>
            set_clipboard {| readText := ""; readImage := ImageOf (Some content) |} st
        | None => st
        end in
      (reply.mk true None None None, set_lastClipboardContent (Some content) st)
  end.

(** [ipcMain.handle('clear-clipboard', ...)] *)
Definition clear_clipboard (thrown : option string) (st : AppState)
    : reply.t * AppState :=
  match thrown with
  | Some message => (reply.mk false None None (Some message), st)
  | None =>
      (reply.mk true None None None,
       set_lastClipboardContent None (set_clipboard clipboard_clear st))
  end.

(** [ipcMain.handle('clear-history', ...)] *)
Definition clear_history (st : AppState) : reply.t * AppState :=
  let st := set_clipboardHistory [] st in
  let st := set_lastClipboardContent None st in
  let st := set_clipboard clipboard_clear st in
  (reply.mk true None (Some 0) None, st).

(** [ipcMain.handle('delete-history-item', ...)] *)
Definition delete_history_item (itemId : Z) (st : AppState) : reply.t * AppState :=
  let initialLength := length (clipboardHistory st) in
  let st :=
    set_clipboardHistory
      (filter (fun it => item.id it <> itemId) (clipboardHistory st)) st in
  let deleted := bool_decide (initialLength <> length (clipboardHistory st)) in
  (reply.mk deleted (Some (clipboardHistory st))
     (Some (getMemoryUsage (clipboardHistory st))) None, st).

(** [ipcMain.handle('get-memory-usage', ...)] *)
Definition get_memory_usage (st : AppState) : Z :=
  getMemoryUsage (clipboardHistory st).

(** [ipcMain.handle('toggle-pin-item', ...)]. [find] gives the first entry
    with the id; the assignment to [item.pinned] changes that entry where it
    stands in the array. *)
Definition toggle_pin_item (itemId : Z) (st : AppState) : reply.t * AppState :=
  match list_find (fun it => item.id it = itemId) (clipboardHistory st) with
  | Some (i, it) =>
      let st :=
        set_clipboardHistory
          (<[i := item.set_pinned (negb (item.pinned it)) it]> (clipboardHistory st))
          st in
      (reply.mk true (Some (clipboardHistory st))
         (Some (getMemoryUsage (clipboardHistory st))) None, st)
  | None => (reply.mk false None None None, st)
  end.

(** ** The clipboard poller *)

(** A string in a condition: the empty string is false. *)
Definition truthy (s : string) : bool := bool_decide (s <> ""%string).

(** The callback of [setInterval] in [startClipboardMonitoring]. *)
Definition tick (t_stamp t_id : Z) (st : AppState) : AppState :=
  let currentText := readText (clipboard st) in
  let currentImage := readImage (clipboard st) in
  let '(newContent, contentType, st) :=
    if truthy currentText
       && bool_decide (Some currentText <> lastClipboardContent st)
    then (Some currentText, Some Text,
          set_lastClipboardContent (Some currentText) st)
    else if negb (truthy currentText) && negb (isEmpty currentImage) then
      match toDataURL currentImage with
      | Some imageData =>
          if truthy imageData
             && bool_decide (Some imageData <> lastClipboardContent st)
          then (Some imageData, Some Image,
                set_lastClipboardContent (Some imageData) st)
          else (None, None, st)
      | None => (None, None, st)
      end
    else (None, None, st) in
  let cleared :=
    if negb (truthy currentText) && isEmpty currentImage
       && bool_decide (lastClipboardContent st <> None)
    then
      let st := set_lastClipboardContent None st in
      if mainWindow st then
        send (update.mk (clipboardHistory st) None None
                (getMemoryUsage (clipboardHistory st))) st
      else st
    else st in
  match newContent, contentType with
  | Some content, Some type =>
      if truthy content then addToHistory content type t_stamp t_id st
      else cleared
  | _, _ => cleared
  end.

(** ** The life of the process

    What can happen to the main process, one constructor per callback or
    handler that touches the state. *)
Inductive event :=
  | CreateWindow
  | ReadyToShow
  | Closed
  | BeforeQuit
  | Tick (t_stamp t_id : Z)
  | ClipboardChanged (c : Clipboard)
  | GetClipboardHistory
  | CopyToClipboard (content : string) (type : option ContentType)
      (thrown : option string)
  | ClearClipboard (thrown : option string)
  | ClearHistory
  | DeleteHistoryItem (itemId : Z)
  | GetMemoryUsage
  | TogglePinItem (itemId : Z).

(** The state after an event, or [None] when the event cannot occur in the
    state: [createWindow] is called when there is no window ([app.whenReady],
    [toggleWindow], [showWindow]); a window's ['ready-to-show'] and ['closed']
    need the window; the interval's callback runs while the interval set by
    [startClipboardMonitoring] has not been cleared. *)
Definition handle (e : event) (st : AppState) : option AppState :=
  match e with
  | CreateWindow =>
      if mainWindow st then None else Some (set_mainWindow true st)
  | ReadyToShow =>
      if mainWindow st then Some (set_clipboardMonitor true st) else None
  | Closed =>
      if mainWindow st
      then Some (set_clipboardMonitor false (set_mainWindow false st))
      else None
  | BeforeQuit => Some (set_clipboardMonitor false st)
  | Tick t_stamp t_id =>
      if clipboardMonitor st then Some (tick t_stamp t_id st) else None
  | ClipboardChanged c => Some (set_clipboard c st)
  | GetClipboardHistory => Some st
  | CopyToClipboard content type thrown =>
      Some (copy_to_clipboard content type thrown st).2
  | ClearClipboard thrown => Some (clear_clipboard thrown st).2
  | ClearHistory => Some (clear_history st).2
  | DeleteHistoryItem itemId => Some (delete_history_item itemId st).2
  | GetMemoryUsage => Some st
  | TogglePinItem itemId => Some (toggle_pin_item itemId st).2
  end.

(** The process starts with an empty history, no window and no interval;
    the clipboard holds whatever it holds. *)
Definition initial (c : Clipboard) : AppState :=
  {| clipboardHistory := [];
     lastClipboardContent := None;
     mainWindow := false;
     clipboardMonitor := false;
     clipboard := c;
     sent := [] |}.

Inductive reachable : AppState -> Prop :=
  | reachable_initial c : reachable (initial c)
  | reachable_handle e st st' :
      reachable st -> handle e st = Some st' -> reachable st'.

(** The events of a list, one after the other. *)
Fixpoint replay (events : list event) (st : AppState) : option AppState :=
  match events with
  | [] => Some st
  | e :: rest =>
      match handle e st with
      | Some st' => replay rest st'
      | None => None
      end
  end.

(** An example: the window opens, the poller finds the text ["A"] on the
    clipboard, the user pins its entry, then copies the text ["B"], which
    the poller finds in turn. *)
Definition two_texts_events : list event :=
  [CreateWindow; ReadyToShow; Tick 10 10; TogglePinItem 10;
   ClipboardChanged {| readText := "B"; readImage := EmptyImage |};
   Tick 20 20].

Definition two_texts : AppState :=
  Eval vm_compute in
    default (initial clipboard_clear)
      (replay two_texts_events
         (initial {| readText := "A"; readImage := EmptyImage |})).

(** The store operations of the specification, on their own: [insert] is
    [addToHistory], [delete] the ['delete-history-item'] handler,
    [togglePin] the ['toggle-pin-item'] handler, [clear] the
    ['clear-history'] handler. *)
Inductive store_op :=
  | Insert (content : string) (type : ContentType) (t_stamp t_id : Z)
  | Delete (itemId : Z)
  | TogglePin (itemId : Z)
  | Clear.

Definition apply_op (st : AppState) (o : store_op) : AppState :=
  match o with
  | Insert content type t_stamp t_id => addToHistory content type t_stamp t_id st
  | Delete itemId => (delete_history_item itemId st).2
  | TogglePin itemId => (toggle_pin_item itemId st).2
  | Clear => (clear_history st).2
  end.

Definition run (ops : list store_op) (st : AppState) : AppState :=
  foldl apply_op st ops.

(** ** The older main process

    The repository also holds an older [main.js], from before
    deduplication, pinning and the memory limit. Its entries have no
    [pinned] key and its messages no [contentType]; its [addToHistory] and
    its ['clear-history'] handler are modelled here. *)
Module Legacy.
Record item := mk_item {
  id : Z;
  content : string;
  type : ContentType;
  timestamp : Z;
  size : Z
}.

Record update := mk_update {
  history : list item;
  currentContent : option string;
  memoryUsage : Z
}.

Record AppState := {
  clipboardHistory : list item;
  lastClipboardContent : option string;
  mainWindow : bool;
  clipboard : Clipboard;
  sent : list update
}.

(** [clipboardHistory.reduce((total, item) => total + item.size, 0)] *)
Definition getMemoryUsage (h : list item) : Z :=
  foldl (fun total it => total + size it) 0 h.

(** [addToHistory(content, type)]; [new Blob([content]).size] is the byte
    length of the content. *)
Definition addToHistory (content : string) (type : ContentType)
    (t_stamp t_id : Z) (st : AppState) : AppState :=
  let it := mk_item t_id content type t_stamp (byteLength content) in
  let h := it :: clipboardHistory st in
  {| clipboardHistory := h;
     lastClipboardContent := lastClipboardContent st;
     mainWindow := mainWindow st;
     clipboard := clipboard st;
     sent :=
       if mainWindow st
       then mk_update h (Some content) (getMemoryUsage h) :: sent st
       else sent st |}.

(** [ipcMain.handle('clear-history', ...)] *)
Definition clear_history (st : AppState) : reply.t * AppState :=
  (reply.mk true None (Some 0) None,
   {| clipboardHistory := [];
      lastClipboardContent := None;
      mainWindow := mainWindow st;
      clipboard := clipboard_clear;
      sent := sent st |}).

(** [ipcMain.handle('get-clipboard-history', ...)], the current content
    alone. *)
Definition currentContent_of (st : AppState) : option string :=
  lastClipboardContent st.

Definition initial (c : Clipboard) : AppState :=
  {| clipboardHistory := [];
     lastClipboardContent := None;
     mainWindow := false;
     clipboard := c;
     sent := [] |}.

Definition set_lastClipboardContent (v : option string) (st : AppState)
    : AppState :=
  {| clipboardHistory := clipboardHistory st;
     lastClipboardContent := v;
     mainWindow := mainWindow st;
     clipboard := clipboard st;
     sent := sent st |}.

Definition set_clipboard (v : Clipboard) (st : AppState) : AppState :=
  {| clipboardHistory := clipboardHistory st;
     lastClipboardContent := lastClipboardContent st;
     mainWindow := mainWindow st;
     clipboard := v;
     sent := sent st |}.

(** The callback of [setInterval] in the older [startClipboardMonitoring].
    The data URL of the image is not tested for emptiness, [toDataURL] is
    not guarded (an error ends the turn in the [catch] of the callback), and
    an empty clipboard is not looked for. *)
Definition tick (t_stamp t_id : Z) (st : AppState) : AppState :=
  let currentText := readText (clipboard st) in
  let currentImage := readImage (clipboard st) in
  if truthy currentText
     && bool_decide (Some currentText <> lastClipboardContent st)
  then addToHistory currentText Text t_stamp t_id
         (set_lastClipboardContent (Some currentText) st)
  else if negb (truthy currentText) && negb (isEmpty currentImage) then
    match toDataURL currentImage with
    | Some imageData =>
        if bool_decide (Some imageData <> lastClipboardContent st)
        then
          let st := set_lastClipboardContent (Some imageData) st in
          if truthy imageData
          then addToHistory imageData Image t_stamp t_id st
          else st
        else st
    | None => st
    end
  else st.

(** Insertions one after the other: each with its content, its type and
    its two clock readings. *)
Definition insert_all (entries : list (string * ContentType * Z * Z))
    (st : AppState) : AppState :=
  foldl (fun st '(content, type, t_stamp, t_id) =>
           addToHistory content type t_stamp t_id st) st entries.
End Legacy.

(** ** The renderer

    The script of the window ([renderer/app.js]): its state, the list it
    shows, the selection moved by the keyboard, and what it does with the
    messages and the replies of the main process. The page itself (the
    elements, the toasts, the modal) is left out. The entries it holds are
    copies of the entries of the main process. *)
Module Renderer.

(** [filterType]: ['all'], or the type the list is filtered by. *)
Inductive Filter := All | Only (type : ContentType).

#[global] Instance Filter_eq_dec : EqDecision Filter.
Proof. solve_decision. Defined.

Record State := {
  clipboardHistory : list item.t;
  currentContent : option string;
  currentContentType : option ContentType;
  memoryUsage : Z;
  searchTerm : string;
  filterType : Filter;
  selectedIndex : Z
}.

Definition set_selectedIndex (v : Z) (st : State) : State :=
  {| clipboardHistory := clipboardHistory st;
     currentContent := currentContent st;
     currentContentType := currentContentType st;
     memoryUsage := memoryUsage st;
     searchTerm := searchTerm st;
     filterType := filterType st;
     selectedIndex := v |}.

Definition set_current (content : option string) (type : option ContentType)
    (st : State) : State :=
  {| clipboardHistory := clipboardHistory st;
     currentContent := content;
     currentContentType := type;
     memoryUsage := memoryUsage st;
     searchTerm := searchTerm st;
     filterType := filterType st;
     selectedIndex := selectedIndex st |}.

Definition set_history (h : list item.t) (usage : Z) (st : State) : State :=
  {| clipboardHistory := h;
     currentContent := currentContent st;
     currentContentType := currentContentType st;
     memoryUsage := usage;
     searchTerm := searchTerm st;
     filterType := filterType st;
     selectedIndex := selectedIndex st |}.

Definition set_searchTerm (v : string) (st : State) : State :=
  {| clipboardHistory := clipboardHistory st;
     currentContent := currentContent st;
     currentContentType := currentContentType st;
     memoryUsage := memoryUsage st;
     searchTerm := v;
     filterType := filterType st;
     selectedIndex := selectedIndex st |}.

Definition set_filterType (v : Filter) (st : State) : State :=
  {| clipboardHistory := clipboardHistory st;
     currentContent := currentContent st;
     currentContentType := currentContentType st;
     memoryUsage := memoryUsage st;
     searchTerm := searchTerm st;
     filterType := v;
     selectedIndex := selectedIndex st |}.

(** The state the script starts with. *)
Definition initial : State :=
  {| clipboardHistory := [];
     currentContent := None;
     currentContentType := None;
     memoryUsage := 0;
     searchTerm := "";
     filterType := All;
     selectedIndex := -1 |}.

(** The comparison function of [getFilteredHistory]: negative when [a]
    goes first. *)
Definition compare (a b : item.t) : Z :=
  if item.pinned a && negb (item.pinned b) then -1
  else if negb (item.pinned a) && item.pinned b then 1
  else item.timestamp b - item.timestamp a.

(** [Array.prototype.sort] with a comparison function is a stable sort; it
    is written here as an insertion sort that puts an element in front of
    the first element it does not compare above. *)
Fixpoint insert_sorted (compareFn : item.t -> item.t -> Z) (x : item.t)
    (l : list item.t) : list item.t :=
  match l with
  | [] => [x]
  | y :: rest =>
      if compareFn x y <=? 0 then x :: y :: rest
      else y :: insert_sorted compareFn x rest
  end.

Definition sort (compareFn : item.t -> item.t -> Z) (l : list item.t)
    : list item.t :=
  foldr (insert_sorted compareFn) [] l.

(** [s.includes(sub)] *)
Fixpoint includes (s sub : string) : bool :=
  String.prefix sub s ||
  match s with
  | EmptyString => false
  | String _ rest => includes rest sub
  end.

(** [formatTimestamp(timestamp)], with the clock reading of [new Date()] as
    [now]; both in milliseconds. *)
Definition formatTimestamp (toLocaleDateString : Z -> string)
    (timestamp now : Z) : string :=
  let diffMs := now - timestamp in
  let diffMins := diffMs / 60000 in
  let diffHours := diffMs / 3600000 in
  let diffDays := diffMs / 86400000 in
  if diffMins <? 1 then "Just now"
  else if diffMins <? 60 then pretty diffMins +:+ " min ago"
  else if diffHours <? 24 then
    pretty diffHours +:+ " hour" +:+ (if 1 <? diffHours then "s" else "")
      +:+ " ago"
  else if diffDays =? 1 then "Yesterday"
  else if diffDays <? 7 then pretty diffDays +:+ " days ago"
  else toLocaleDateString timestamp.

Section WithLowerCase.

(** [String.prototype.toLowerCase] *)
Variable toLowerCase : string -> string.

(** The test of the [filter] in [getFilteredHistory]. *)
Definition shown (st : State) (it : item.t) : bool :=
  match filterType st with
  | Only type => bool_decide (item.type it = type)
  | All => true
  end &&
  (negb (truthy (searchTerm st)) ||
   match item.type it with
   | Text =>
       includes (toLowerCase (item.content it)) (toLowerCase (searchTerm st))
   | Image => false
   end).

(** [getFilteredHistory()] *)
Definition getFilteredHistory (st : State) : list item.t :=
  filter (fun it => shown st it = true) (sort compare (clipboardHistory st)).

(** [renderHistoryList()], as far as the state goes. *)
Definition renderHistoryList (st : State) : State :=
  set_selectedIndex (-1) st.

(** [updateSelection(newIndex)] *)
Definition updateSelection (newIndex : Z) (st : State) : State :=
  let filteredHistory := getFilteredHistory st in
  if bool_decide (length filteredHistory = 0%nat) then st
  else
    let newIndex := if newIndex <? 0 then 0 else newIndex in
    let newIndex :=
      if Z.of_nat (length filteredHistory) <=? newIndex
      then Z.of_nat (length filteredHistory) - 1
      else newIndex in
    set_selectedIndex newIndex st.

(** [selectAndCopy(index)]: the entry it asks the main process to copy, if
    any. *)
Definition selectAndCopy (index : Z) (st : State) : option item.t :=
  let filteredHistory := getFilteredHistory st in
  if (index <? 0) || (Z.of_nat (length filteredHistory) <=? index) then None
  else filteredHistory !! Z.to_nat index.

(** What [selectAndCopy], [handleHistoryItemClick] and [copyToClipboard] do
    when the reply says [success: true]. *)
Definition copied (it : item.t) (st : State) : State :=
  set_current (Some (item.content it)) (Some (item.type it)) st.

(** The keys of the [keydown] listener that move or use the selection;
    [Digit d] is one of the keys ['1'] to ['9']. *)
Inductive key := ArrowDown | ArrowUp | Enter | Digit (d : Z).

(** The [keydown] listener for these keys, with no modifier key held:
    the state it leaves and the entry it asks to copy. *)
Definition keydown (k : key) (isSearchFocused : bool) (st : State)
    : State * option item.t :=
  match k with
  | Digit d =>
      if negb isSearchFocused then (st, selectAndCopy (d - 1) st)
      else (st, None)
  | ArrowDown => (updateSelection (selectedIndex st + 1) st, None)
  | ArrowUp =>
      if selectedIndex st <=? 0 then (set_selectedIndex (-1) st, None)
      else (updateSelection (selectedIndex st - 1) st, None)
  | Enter =>
      if negb isSearchFocused && (0 <=? selectedIndex st)
      then (st, selectAndCopy (selectedIndex st) st)
      else (st, None)
  end.

(** [handleSearch()], with the trimmed value of the search box. *)
Definition handleSearch (value : string) (st : State) : State :=
  renderHistoryList (set_searchTerm value st).

(** [clearSearch()] *)
Definition clearSearch (st : State) : State :=
  renderHistoryList (set_searchTerm "" st).

(** [handleFilterClick(e)], with the filter of the button clicked. *)
Definition handleFilterClick (type : Filter) (st : State) : State :=
  if decide (type = filterType st) then st
  else renderHistoryList (set_filterType type st).

(** The listener of ['clipboard-updated']: the state it leaves, and whether
    it shows the toast "hidden by filter". *)
Definition onClipboardUpdate (data : update.t) (st : State) : State * bool :=
  let isNewItem :=
    bool_decide (length (clipboardHistory st) < length (update.history data))%nat in
  let st := set_history (update.history data) (update.memoryUsage data) st in
  let st := set_current (update.currentContent data) (update.contentType data) st in
  let st := renderHistoryList st in
  let filtering :=
    truthy (searchTerm st) || negb (bool_decide (filterType st = All)) in
  let notice :=
    if isNewItem && filtering then
      match clipboardHistory st !! 0%nat with
      | Some newest =>
          let isHiddenByType :=
            match filterType st with
            | Only type => negb (bool_decide (item.type newest = type))
            | All => false
            end in
          let isHiddenBySearch :=
            truthy (searchTerm st)
            && bool_decide (item.type newest = Text)
            && negb (includes (toLowerCase (item.content newest))
                       (toLowerCase (searchTerm st))) in
          let isHiddenByImageSearch :=
            truthy (searchTerm st) && bool_decide (item.type newest = Image) in
          isHiddenByType || isHiddenBySearch || isHiddenByImageSearch
      | None => false
      end
    else false in
  (st, notice).

(** What [togglePinItem] and [deleteHistoryItem] do with the reply of the
    main process: with [success: true] they take its history and its
    memory usage (the handlers send both with every such reply). *)
Definition take_reply (r : reply.t) (st : State) : State :=
  if reply.success r then
    match reply.history r, reply.memoryUsage r with
    | Some h, Some usage => renderHistoryList (set_history h usage st)
    | _, _ => st
    end
  else st.

(** [deleteHistoryItem(itemId)], confirmed in the modal, with the handler of
    the main process as [invoke]: nothing is asked when the renderer holds
    no entry with the id. *)
Definition deleteHistoryItem {M : Type} (invoke : Z -> M -> reply.t * M)
    (itemId : Z) (main : M) (st : State) : M * State :=
  match list_find (fun it => item.id it = itemId) (clipboardHistory st) with
  | Some _ =>
      let '(r, main) := invoke itemId main in (main, take_reply r st)
  | None => (main, st)
  end.

(** [togglePinItem(itemId)] *)
Definition togglePinItem {M : Type} (invoke : Z -> M -> reply.t * M)
    (itemId : Z) (main : M) (st : State) : M * State :=
  let '(r, main) := invoke itemId main in (main, take_reply r st).

(** [clearAllHistory()], confirmed in the modal. *)
Definition clearAllHistory {M : Type} (invoke : M -> reply.t * M)
    (main : M) (st : State) : M * State :=
  let '(r, main) := invoke main in
  if reply.success r then
    match reply.memoryUsage r with
    | Some usage =>
        (main,
         renderHistoryList (set_current None None (set_history [] usage st)))
    | None => (main, st)
    end
  else (main, st).

(** [loadClipboardHistory()], with what ['get-clipboard-history'] returned. *)
Definition loadClipboardHistory (result : snapshot.t) (st : State) : State :=
  let h := snapshot.history result in
  let st := set_history h (snapshot.memoryUsage result) st in
  let st :=
    match h !! 0%nat with
    | Some first => set_current (Some (item.content first)) (Some (item.type first)) st
    | None => set_current None None st
    end in
  renderHistoryList st.

(** What happens to the renderer, one constructor per listener: a key of
    the selection, the search box, the filter buttons, a message of the main
    process, the reply to a pin toggle or a deletion, the reply to a clear,
    the history loaded, the reply to a copy. *)
Inductive event :=
  | KeyDown (k : key) (isSearchFocused : bool)
  | SearchInput (value : string)
  | SearchCleared
  | FilterClicked (type : Filter)
  | ClipboardUpdated (data : update.t)
  | Replied (r : reply.t)
  | ClearReplied (r : reply.t)
  | Loaded (result : snapshot.t)
  | CopyReplied (it : item.t) (r : reply.t).

Definition step (e : event) (st : State) : State :=
  match e with
  | KeyDown k isSearchFocused => (keydown k isSearchFocused st).1
  | SearchInput value => handleSearch value st
  | SearchCleared => clearSearch st
  | FilterClicked type => handleFilterClick type st
  | ClipboardUpdated data => (onClipboardUpdate data st).1
  | Replied r => take_reply r st
  | ClearReplied r => (clearAllHistory (fun _ : unit => (r, tt)) tt st).2
  | Loaded result => loadClipboardHistory result st
  | CopyReplied it r => if reply.success r then copied it st else st
  end.

(** The selection is on no entry, or on an entry of the list shown. *)
Definition selection_ok (st : State) : Prop :=
  selectedIndex st = -1 \/
  0 <= selectedIndex st < Z.of_nat (length (getFilteredHistory st)).

End WithLowerCase.
End Renderer.

(** ** Vocabulary of the properties *)

(** The total of the specification: the sum of [size] over the entries,
    written by recursion on the collection rather than with the
    accumulator of [reduce]. *)
Fixpoint sum_of_sizes (h : list item.t) : Z :=
  match h with
  | [] => 0
  | it :: rest => item.size it + sum_of_sizes rest
  end.

(** The pinned entries, in their order, and the others. *)
Definition pinned_entries (h : list item.t) : list item.t :=
  filter (fun it => item.pinned it = true) h.

Definition unpinned_entries (h : list item.t) : list item.t :=
  filter (fun it => item.pinned it = false) h.

(** A string of [n] copies of a character. *)
Fixpoint repeat_char (a : ascii) (n : nat) : string :=
  match n with
  | O => EmptyString
  | S n => String a (repeat_char a n)
  end.

(** A text of [n] bytes ([1 <= n]) that starts with the character [a]. *)
Definition text_of_size (a : ascii) (n : Z) : string :=
  String a (repeat_char "x" (Z.to_nat (n - 1))).

(** The ids of the entries, in the order of the history. *)
Definition ids (h : list item.t) : list Z := item.id <$> h.

(** The [Date.now()] readings of the insertions of [ops] go strictly up,
    starting above [bound]. *)
Fixpoint clock_advances (bound : Z) (ops : list store_op) : Prop :=
  match ops with
  | [] => True
  | Insert _ _ _ t_id :: rest => bound < t_id /\ clock_advances t_id rest
  | _ :: rest => clock_advances bound rest
  end.

(** The ids are pairwise different and none is above [bound]. *)
Definition ids_unique_upto (bound : Z) (h : list item.t) : Prop :=
  NoDup (ids h) /\ Forall (fun it => item.id it <= bound) h.

(** Every ['clipboard-updated'] message sent so far reports the sum of the
    sizes of the history it carries. *)
Definition updates_accurate (st : AppState) : Prop :=
  Forall (fun u => update.memoryUsage u = sum_of_sizes (update.history u))
    (sent st).

(** What holds of the history in every state of the process: the size of an
    entry is the byte length of its content, no two entries have the same
    content, and the sizes sum to at most the limit. *)
Definition sizes_cached (h : list item.t) : Prop :=
  Forall (fun it => item.size it = byteLength (item.content it)) h.

Definition contents_distinct (h : list item.t) : Prop :=
  NoDup (item.content <$> h).

Definition store_ok (h : list item.t) : Prop :=
  sizes_cached h /\ contents_distinct h /\
  getMemoryUsage h <= MAX_MEMORY_BYTES.

(** The contents of the pinned entries. *)
Definition pinned_contents (h : list item.t) : list string :=
  item.content <$> pinned_entries h.

(** The operations of a list are all insertions. *)
Definition insertions_only (ops : list store_op) : Prop :=
  Forall (fun o => match o with Insert _ _ _ _ => True | _ => False end) ops.

(** The timestamps of the entries, in the order of the history, and the
    history with every entry newer than the entries behind it. *)
Definition timestamps (h : list item.t) : list Z := item.timestamp <$> h.

Definition newest_first (h : list item.t) : Prop :=
  StronglySorted (fun a b : Z => b < a) (timestamps h).

(** Newest first, and no timestamp above [bound]. *)
Definition newest_first_upto (bound : Z) (h : list item.t) : Prop :=
  newest_first h /\ Forall (fun it => item.timestamp it <= bound) h.

(** The [new Date()] readings of the insertions of [ops] go strictly up,
    starting above [bound]. *)
Fixpoint stamps_advance (bound : Z) (ops : list store_op) : Prop :=
  match ops with
  | [] => True
  | Insert _ _ t_stamp _ :: rest => bound < t_stamp /\ stamps_advance t_stamp rest
  | _ :: rest => stamps_advance bound rest
  end.

(** The events that are turns of the poller, and those that can change the
    history. *)
Definition is_tick (e : event) : bool :=
  match e with Tick _ _ => true | _ => false end.

Definition touches_history (e : event) : bool :=
  match e with
  | Tick _ _ | ClearHistory | DeleteHistoryItem _ | TogglePinItem _ => true
  | _ => false
  end.

(** The bytes of a list of contents, all together. *)
Definition total_bytes (contents : list string) : Z :=
  foldr (fun c acc => byteLength c + acc) 0 contents.

(** The order of the list the renderer shows: a pinned entry before one
    that is not pinned, and otherwise the newer entry first (or either, at
    the same timestamp). *)
Definition in_display_order (a b : item.t) : Prop :=
  (item.pinned a = true /\ item.pinned b = false) \/
  (item.pinned a = item.pinned b /\ item.timestamp b <= item.timestamp a).

(** The renderer holds the history of the main process, with its memory
    usage. *)
Definition in_sync (main : AppState) (r : Renderer.State) : Prop :=
  Renderer.clipboardHistory r = clipboardHistory main /\
  Renderer.memoryUsage r = sum_of_sizes (clipboardHistory main).

(** A turn of the poller, with the message it sends (if it sends one)
    delivered to the renderer. *)
Definition poll (toLowerCase : string -> string) (t_stamp t_id : Z)
    (main : AppState) (r : Renderer.State) : AppState * Renderer.State :=
  let main' := tick t_stamp t_id main in
  let delivered :=
    take (length (sent main') - length (sent main)) (sent main') in
  (main',
   foldr (fun data r => (Renderer.onClipboardUpdate toLowerCase data r).1)
     r delivered).

(** * Properties *)

(** ** Reachable states *)

Lemma replay_reachable events : forall st st',
  reachable st -> replay events st = Some st' -> reachable st'.
Proof.
  induction events as [|e rest IH]; simpl; intros st st' Hreach Hreplay.
  - by injection Hreplay as <-.
  - destruct (handle e st) as [st1|] eqn:Hhandle; [|discriminate].
    apply (IH st1 st'); [|done]. by apply (reachable_handle e st).
Qed.

Lemma two_texts_reachable : reachable two_texts.
Proof.
  apply (replay_reachable two_texts_events
           (initial {| readText := "A"; readImage := EmptyImage |}));
    [constructor|reflexivity].
Qed.

Lemma two_texts_history :
  clipboardHistory two_texts =
  [item.mk 20 "B" Text 20 1 false; item.mk 10 "A" Text 10 1 true].
Proof. reflexivity. Qed.

(** ** Memory accounting *)

Lemma foldl_size_acc (h : list item.t) (acc : Z) :
  foldl (fun total it => total + item.size it) acc h = acc + sum_of_sizes h.
Proof.
  revert acc. induction h as [|it rest IH]; intros acc; simpl.
  - lia.
  - rewrite IH. lia.
Qed.

Lemma getMemoryUsage_sum h : getMemoryUsage h = sum_of_sizes h.
Proof. unfold getMemoryUsage. rewrite foldl_size_acc. lia. Qed.

Lemma getMemoryUsage_nil : getMemoryUsage [] = 0.
Proof. reflexivity. Qed.

Lemma getMemoryUsage_cons it h :
  getMemoryUsage (it :: h) = item.size it + getMemoryUsage h.
Proof. rewrite !getMemoryUsage_sum. reflexivity. Qed.

Lemma getMemoryUsage_app h1 h2 :
  getMemoryUsage (h1 ++ h2) = getMemoryUsage h1 + getMemoryUsage h2.
Proof.
  induction h1 as [|it h1 IH]; simpl.
  - rewrite getMemoryUsage_nil. lia.
  - rewrite !getMemoryUsage_cons, IH. lia.
Qed.

(** ** The scan for the entry to evict *)

Lemma scan_Some h n i :
  scan h n = Some i ->
  (i < n)%nat /\
  ((n <= length h)%nat -> exists x, h !! i = Some x /\ item.pinned x = false) /\
  (forall j y, (i < j < n)%nat -> h !! j = Some y -> item.pinned y = true).
Proof.
  induction n as [|n IH]; simpl; [discriminate|].
  destruct (h !! n) as [it|] eqn:Hn.
  - destruct (item.pinned it) eqn:Hp.
    + intros H. destruct (IH H) as (Hlt & Hx & Hafter).
      split; [lia|]. split.
      * intros Hle. apply Hx. lia.
      * intros j y Hj Hy. destruct (decide (j = n)) as [->|Hne].
        -- congruence.
        -- apply (Hafter j y); [lia|done].
    + intros [= <-]. split; [lia|]. split.
      * intros _. eauto.
      * intros j y Hj. lia.
  - intros H. destruct (IH H) as (Hlt & Hx & Hafter).
    split; [lia|]. split.
    + intros Hle. apply lookup_ge_None in Hn. lia.
    + intros j y Hj Hy. destruct (decide (j = n)) as [->|Hne].
      * congruence.
      * apply (Hafter j y); [lia|done].
Qed.

Lemma scan_None h n :
  scan h n = None ->
  forall j y, (j < n)%nat -> h !! j = Some y -> item.pinned y = true.
Proof.
  induction n as [|n IH]; simpl; intros H j y Hj Hy; [lia|].
  destruct (h !! n) as [it|] eqn:Hn.
  - destruct (item.pinned it) eqn:Hp; [|discriminate].
    destruct (decide (j = n)) as [->|Hne]; [congruence|].
    apply (IH H j y); [lia|done].
  - destruct (decide (j = n)) as [->|Hne]; [congruence|].
    apply (IH H j y); [lia|done].
Qed.

(** [removeIndex] is the index of the tail-most entry that is not pinned:
    everything after it is pinned. *)
Lemma removeIndex_Some h i :
  removeIndex h = Some i ->
  exists newer x older,
    h = newer ++ x :: older /\ length newer = i /\
    item.pinned x = false /\ Forall (fun y => item.pinned y = true) older.
Proof.
  intros H. apply scan_Some in H as (Hlt & Hx & Hafter).
  destruct Hx as (x & Hx & Hp); [lia|].
  exists (take i h), x, (drop (S i) h). split; [|split; [|split]].
  - symmetry. by apply take_drop_middle.
  - rewrite length_take. lia.
  - done.
  - apply Forall_forall. intros y Hy.
    apply list_elem_of_lookup in Hy as [k Hk].
    rewrite lookup_drop in Hk.
    apply (Hafter (S i + k)%nat y); [|done].
    apply lookup_lt_Some in Hk. lia.
Qed.

Lemma removeIndex_None h :
  removeIndex h = None -> Forall (fun y => item.pinned y = true) h.
Proof.
  intros H. apply Forall_forall. intros y Hy.
  apply list_elem_of_lookup in Hy as [k Hk].
  apply (scan_None h (length h) H k y); [|done].
  by apply lookup_lt_Some in Hk.
Qed.

(** A turn that goes on removes exactly that entry. *)
Lemma iteration_Some h h' :
  iteration h = Some h' ->
  getMemoryUsage h > MAX_MEMORY_BYTES /\
  exists newer x older,
    h = newer ++ x :: older /\ h' = newer ++ older /\
    item.pinned x = false /\ Forall (fun y => item.pinned y = true) older.
Proof.
  unfold iteration. case_bool_decide as Hover; [|discriminate].
  destruct (removeIndex h) as [i|] eqn:Hi; [|discriminate].
  intros [= <-]. split; [done|].
  apply removeIndex_Some in Hi as (newer & x & older & -> & <- & Hp & Hold).
  exists newer, x, older. split; [done|]. split; [|done].
  by rewrite delete_middle.
Qed.

(** A turn that ends the loop leaves the total within the limit, or only
    pinned entries. *)
Lemma iteration_None h :
  iteration h = None ->
  getMemoryUsage h <= MAX_MEMORY_BYTES \/
  Forall (fun y => item.pinned y = true) h.
Proof.
  unfold iteration. case_bool_decide as Hover; [|intros _; left; lia].
  destruct (removeIndex h) as [i|] eqn:Hi; [discriminate|].
  intros _. right. by apply removeIndex_None.
Qed.

Lemma enforceMemoryLimit_turn h :
  enforceMemoryLimit h =
  match iteration h with
  | Some h' => enforceMemoryLimit h'
  | None => h
  end.
Proof.
  funelim (enforceMemoryLimit h).
  - rewrite Hturn. reflexivity.
  - rewrite e. reflexivity.
Qed.

(** Induction along the turns of the loop. *)
Lemma enforceMemoryLimit_turns_ind (P : list item.t -> list item.t -> Prop) :
  (forall h, iteration h = None -> P h h) ->
  (forall h h', iteration h = Some h' ->
     P h' (enforceMemoryLimit h') -> P h (enforceMemoryLimit h')) ->
  forall h, P h (enforceMemoryLimit h).
Proof.
  intros Hend Hturn h.
  induction h as [h IH] using (induction_ltof1 _ (@length item.t)).
  rewrite enforceMemoryLimit_turn.
  destruct (iteration h) as [h'|] eqn:E.
  - apply Hturn; [done|]. apply IH. by apply iteration_length.
  - by apply Hend.
Qed.

(** ** Enforcement of the memory limit *)

Lemma enforceMemoryLimit_within h :
  getMemoryUsage h <= MAX_MEMORY_BYTES -> enforceMemoryLimit h = h.
Proof.
  intros Hle. rewrite enforceMemoryLimit_turn. unfold iteration.
  case_bool_decide; [lia|done].
Qed.

Lemma enforceMemoryLimit_bound h :
  getMemoryUsage (enforceMemoryLimit h) <= MAX_MEMORY_BYTES \/
  Forall (fun y => item.pinned y = true) (enforceMemoryLimit h).
Proof.
  apply (enforceMemoryLimit_turns_ind
           (fun _ r => getMemoryUsage r <= MAX_MEMORY_BYTES \/
                       Forall (fun y => item.pinned y = true) r)).
  - apply iteration_None.
  - auto.
Qed.

Lemma pinned_entries_middle newer x older :
  item.pinned x = false ->
  pinned_entries (newer ++ x :: older) = pinned_entries (newer ++ older).
Proof.
  intros Hp. unfold pinned_entries. rewrite !filter_app, filter_cons.
  case_decide; [congruence|done].
Qed.

Lemma enforceMemoryLimit_pinned h :
  pinned_entries (enforceMemoryLimit h) = pinned_entries h.
Proof.
  apply (enforceMemoryLimit_turns_ind
           (fun h r => pinned_entries r = pinned_entries h)).
  - done.
  - intros h0 h' Hturn IH.
    apply iteration_Some in Hturn as (_ & newer & x & older & -> & -> & Hp & _).
    rewrite IH. symmetry. by apply pinned_entries_middle.
Qed.

Lemma enforceMemoryLimit_sublist h : enforceMemoryLimit h `sublist_of` h.
Proof.
  apply (enforceMemoryLimit_turns_ind (fun h r => r `sublist_of` h)).
  - done.
  - intros h0 h' Hturn IH.
    apply iteration_Some in Hturn as (_ & newer & x & older & -> & -> & _).
    etrans; [exact IH|]. apply sublist_app; [done|]. by apply sublist_cons.
Qed.

Lemma addToHistory_history content type t_stamp t_id st :
  clipboardHistory (addToHistory content type t_stamp t_id st) =
  enforceMemoryLimit (unshifted content type t_stamp t_id (clipboardHistory st)).
Proof. unfold addToHistory. simpl. by destruct (mainWindow st). Qed.

(** C2. Once [enforceMemoryLimit] has run, the sizes of the entries sum to
    at most [MAX_MEMORY_BYTES] (500 MiB) or every entry left is pinned, and
    the pinned entries are those there were, in their order: enforcement
    removes none of them. [addToHistory] runs it before it returns, so the
    history it leaves is in that condition, with every pinned entry of the
    history it built still there. *)
Theorem enforcement_ceiling_unless_all_pinned :
  MAX_MEMORY_BYTES = 524288000 /\
  (forall h,
     (sum_of_sizes (enforceMemoryLimit h) <= MAX_MEMORY_BYTES \/
      Forall (fun y => item.pinned y = true) (enforceMemoryLimit h)) /\
     pinned_entries (enforceMemoryLimit h) = pinned_entries h) /\
  (forall content type t_stamp t_id st,
     let h := clipboardHistory (addToHistory content type t_stamp t_id st) in
     (sum_of_sizes h <= MAX_MEMORY_BYTES \/
      Forall (fun y => item.pinned y = true) h) /\
     pinned_entries h =
     pinned_entries (unshifted content type t_stamp t_id (clipboardHistory st))).
Proof.
  split; [reflexivity|]. split.
  - intros h. rewrite <- getMemoryUsage_sum.
    split; [apply enforceMemoryLimit_bound | apply enforceMemoryLimit_pinned].
  - intros content type t_stamp t_id st h. subst h.
    rewrite addToHistory_history, <- getMemoryUsage_sum.
    split; [apply enforceMemoryLimit_bound | apply enforceMemoryLimit_pinned].
Qed.

Lemma unpinned_entries_all_pinned h :
  Forall (fun y => item.pinned y = true) h -> unpinned_entries h = [].
Proof.
  induction 1 as [|y h Hy _ IH]; [done|].
  unfold unpinned_entries in *. rewrite filter_cons.
  case_decide; [congruence|done].
Qed.

Lemma unpinned_entries_turn newer x older :
  item.pinned x = false ->
  Forall (fun y => item.pinned y = true) older ->
  unpinned_entries (newer ++ x :: older) = unpinned_entries (newer ++ older) ++ [x].
Proof.
  intros Hp Hold. pose proof (unpinned_entries_all_pinned _ Hold) as Hnil.
  unfold unpinned_entries in *. rewrite !filter_app, filter_cons, Hnil.
  case_decide; [|congruence]. by rewrite app_nil_r.
Qed.

(** Over the whole loop: the entries that are not pinned and stay are the
    newest of them. *)
Lemma enforceMemoryLimit_keeps_newest h :
  unpinned_entries (enforceMemoryLimit h) `prefix_of` unpinned_entries h.
Proof.
  apply (enforceMemoryLimit_turns_ind
           (fun h r => unpinned_entries r `prefix_of` unpinned_entries h)).
  - done.
  - intros h0 h' Hturn IH.
    apply iteration_Some in Hturn as (_ & newer & x & older & -> & -> & Hp & Hold).
    rewrite (unpinned_entries_turn _ _ _ Hp Hold).
    etrans; [exact IH|]. by apply prefix_app_r.
Qed.

Lemma byteLength_repeat_char a n : byteLength (repeat_char a n) = Z.of_nat n.
Proof.
  unfold byteLength. f_equal.
  induction n as [|n IH]; simpl; [done|]. by rewrite IH.
Qed.

Lemma byteLength_nonneg content : 0 <= byteLength content.
Proof. unfold byteLength. lia. Qed.

Lemma repeat_char_inj a b n :
  repeat_char a (S n) = repeat_char b (S n) -> a = b.
Proof. simpl. by intros [= ->]. Qed.

Lemma unshifted_absent content type t_stamp t_id h :
  list_find (fun it => item.content it = content) h = None ->
  unshifted content type t_stamp t_id h =
  item.mk t_id content type t_stamp (byteLength content) false :: h.
Proof. unfold unshifted. by intros ->. Qed.

Lemma unshifted_present content type t_stamp t_id h i existing :
  list_find (fun it => item.content it = content) h = Some (i, existing) ->
  unshifted content type t_stamp t_id h =
  item.set_id t_id (item.set_timestamp t_stamp existing) :: delete i h.
Proof. unfold unshifted. by intros ->. Qed.

(** Two different contents of 300 MiB each, put one after the other into an
    empty history: the first is evicted, the second stays. *)
Lemma two_entries_over_limit c1 c2 ty1 ty2 ts1 id1 ts2 id2 st :
  clipboardHistory st = [] ->
  c1 <> c2 ->
  byteLength c1 = 300 * 1024 * 1024 ->
  byteLength c2 = 300 * 1024 * 1024 ->
  clipboardHistory
    (addToHistory c2 ty2 ts2 id2 (addToHistory c1 ty1 ts1 id1 st)) =
  [item.mk id2 c2 ty2 ts2 (300 * 1024 * 1024) false].
Proof.
  intros Hempty Hne H1 H2.
  rewrite !addToHistory_history, Hempty.
  rewrite (unshifted_absent c1 ty1 ts1 id1 []) by done.
  rewrite (enforceMemoryLimit_within [_]).
  2:{ rewrite getMemoryUsage_cons, getMemoryUsage_nil. simpl item.size.
      rewrite H1. unfold MAX_MEMORY_BYTES. lia. }
  rewrite unshifted_absent.
  2:{ apply list_find_None. by repeat constructor. }
  rewrite enforceMemoryLimit_turn. unfold iteration.
  rewrite !getMemoryUsage_cons, getMemoryUsage_nil. simpl item.size.
  rewrite H1, H2.
  case_bool_decide as Hover; [|unfold MAX_MEMORY_BYTES in Hover; lia].
  unfold removeIndex. simpl.
  rewrite enforceMemoryLimit_within; [done|].
  rewrite getMemoryUsage_cons, getMemoryUsage_nil. simpl item.size.
  unfold MAX_MEMORY_BYTES. lia.
Qed.

(** C3. A turn of the enforcement loop that removes an entry removes the
    tail-most (oldest) entry that is not pinned: every entry after it is
    pinned, and the others keep their places; over the whole loop, the
    entries that are not pinned and stay are the newest of them. In
    particular, after two different contents of 300 MiB each are put into an
    empty history, the second alone is left (the sizes sum to at most
    500 MiB): the first, older one was evicted. *)
Theorem eviction_takes_oldest_unpinned :
  (forall h h',
     iteration h = Some h' ->
     exists newer x older,
       h = newer ++ x :: older /\ h' = newer ++ older /\
       item.pinned x = false /\
       Forall (fun y => item.pinned y = true) older) /\
  (forall h,
     unpinned_entries (enforceMemoryLimit h) `prefix_of` unpinned_entries h) /\
  (forall c1 c2 ty1 ty2 ts1 id1 ts2 id2 st,
     clipboardHistory st = [] ->
     c1 <> c2 ->
     byteLength c1 = 300 * 1024 * 1024 ->
     byteLength c2 = 300 * 1024 * 1024 ->
     let st2 := addToHistory c2 ty2 ts2 id2 (addToHistory c1 ty1 ts1 id1 st) in
     clipboardHistory st2 = [item.mk id2 c2 ty2 ts2 (300 * 1024 * 1024) false] /\
     sum_of_sizes (clipboardHistory st2) <= 500 * 1024 * 1024).
Proof.
  split; [|split].
  - intros h h' Hturn. by apply iteration_Some in Hturn as [_ ?].
  - apply enforceMemoryLimit_keeps_newest.
  - intros c1 c2 ty1 ty2 ts1 id1 ts2 id2 st Hempty Hne H1 H2 st2. subst st2.
    rewrite (two_entries_over_limit _ _ _ _ _ _ _ _ _ Hempty Hne H1 H2).
    split; [done|]. simpl. lia.
Qed.

Lemma byteLength_String a s : byteLength (String a s) = 1 + byteLength s.
Proof. unfold byteLength. simpl String.length. lia. Qed.

Lemma byteLength_text_of_size a n : 1 <= n -> byteLength (text_of_size a n) = n.
Proof.
  intros Hn. unfold text_of_size.
  rewrite byteLength_String, byteLength_repeat_char, Z2Nat.id; lia.
Qed.

Lemma text_of_size_inj a b n m : text_of_size a n = text_of_size b m -> a = b.
Proof. unfold text_of_size. intros H. injection H as H _. exact H. Qed.

Lemma eviction_takes_oldest_unpinned_witness :
  (exists newer x older,
     [item.mk 2 "B" Text 2 314572800 false; item.mk 1 "A" Text 1 314572800 false]
       = newer ++ x :: older /\
     [item.mk 2 "B" Text 2 314572800 false] = newer ++ older /\
     item.pinned x = false /\
     Forall (fun y => item.pinned y = true) older) /\
  (let st2 :=
     addToHistory (text_of_size "b" (300 * 1024 * 1024)) Text 2000 2000
       (addToHistory (text_of_size "a" (300 * 1024 * 1024)) Text 1000 1000
          (initial clipboard_clear)) in
   clipboardHistory st2 =
     [item.mk 2000 (text_of_size "b" (300 * 1024 * 1024)) Text 2000
        (300 * 1024 * 1024) false] /\
   sum_of_sizes (clipboardHistory st2) <= 500 * 1024 * 1024).
Proof.
  split.
  - apply (proj1 eviction_takes_oldest_unpinned). vm_compute. reflexivity.
  - apply (proj2 (proj2 eviction_takes_oldest_unpinned)).
    + reflexivity.
    + intros Heq. apply text_of_size_inj in Heq. discriminate Heq.
    + apply byteLength_text_of_size. lia.
    + apply byteLength_text_of_size. lia.
Defined.

(** ** Insertion *)

Lemma pinned_entries_all_pinned h :
  Forall (fun y => item.pinned y = true) h -> pinned_entries h = h.
Proof.
  induction 1 as [|y h Hy _ IH]; [done|].
  unfold pinned_entries in *. rewrite filter_cons.
  case_decide; [|congruence]. by rewrite IH.
Qed.

(** The entry in front stays in front through enforcement when it is
    pinned, or when it and the pinned entries behind it fit in the limit. *)
Lemma enforceMemoryLimit_head e h :
  item.pinned e = true \/
  item.size e + getMemoryUsage (pinned_entries h) <= MAX_MEMORY_BYTES ->
  exists kept, enforceMemoryLimit (e :: h) = e :: kept /\ kept `sublist_of` h.
Proof.
  enough (forall l e h,
            l = e :: h ->
            item.pinned e = true \/
            item.size e + getMemoryUsage (pinned_entries h) <= MAX_MEMORY_BYTES ->
            exists kept, enforceMemoryLimit l = e :: kept /\ kept `sublist_of` h)
    as Hgen by (intros; by eapply Hgen).
  intros l.
  apply (enforceMemoryLimit_turns_ind
           (fun l r => forall e h,
              l = e :: h ->
              item.pinned e = true \/
              item.size e + getMemoryUsage (pinned_entries h) <= MAX_MEMORY_BYTES ->
              exists kept, r = e :: kept /\ kept `sublist_of` h)).
  - intros l0 _ e0 h0 -> _. by exists h0.
  - intros l0 l' Hturn IH e0 h0 -> Hcond.
    apply iteration_Some in Hturn
        as (Hover & newer & x & older & Heq & -> & Hp & Hold).
    destruct newer as [|e1 newer].
    + simpl in Heq. injection Heq as -> ->.
      destruct Hcond as [Hpin|Hfit]; [congruence|].
      rewrite (pinned_entries_all_pinned _ Hold) in Hfit.
      rewrite getMemoryUsage_cons in Hover. lia.
    + simpl in Heq. injection Heq as -> ->.
      destruct (IH e1 (newer ++ older)) as (kept & -> & Hsub); [done| |].
      * by rewrite <- (pinned_entries_middle newer x older Hp).
      * exists kept. split; [done|]. etrans; [exact Hsub|].
        apply sublist_app; [done|]. by apply sublist_cons.
Qed.

Lemma list_find_first {A} (P : A -> Prop) `{forall x, Decision (P x)}
    (before : list A) (x : A) (after : list A) :
  Forall (fun y => ~ P y) before -> P x ->
  list_find P (before ++ x :: after) = Some (length before, x).
Proof.
  intros Hbefore Hx. apply list_find_Some. split; [|split].
  - by rewrite list_lookup_middle.
  - done.
  - intros j y Hj Hlt. rewrite lookup_app_l in Hj by done.
    rewrite Forall_forall in Hbefore. apply Hbefore.
    apply list_elem_of_lookup. eauto.
Qed.

(** C1, amended. [addToHistory] puts the entry in front and then enforces
    the memory limit on the result. For content that an entry of the
    history already has (the first such entry is taken): that entry leaves
    its place and comes back in front with the two clock readings as its
    timestamp and id and its content, type, size and pinned flag as they
    were, and the number of entries never grows. For content that no entry
    has: a new entry, not pinned, with the byte length of the content as its
    size, is put in front. In both cases the entry is still in front when
    [addToHistory] returns if it is pinned or if its size and the sizes of
    the pinned entries behind it fit in the limit, and the history is
    exactly the entry followed by the other entries if the whole fits. The
    older [main.js] does none of this: its [addToHistory] always puts a new
    entry in front of the history as it is. *)
Theorem insert_promotes_or_adds content type t_stamp t_id st :
  let h := clipboardHistory st in
  let h' := clipboardHistory (addToHistory content type t_stamp t_id st) in
  (forall before existing after,
     h = before ++ existing :: after ->
     Forall (fun it => item.content it <> content) before ->
     item.content existing = content ->
     let promoted :=
       item.mk t_id (item.content existing) (item.type existing) t_stamp
         (item.size existing) (item.pinned existing) in
     h' = enforceMemoryLimit (promoted :: before ++ after) /\
     (length h' <= length h)%nat /\
     (item.pinned existing = true \/
      item.size existing + sum_of_sizes (pinned_entries (before ++ after))
        <= MAX_MEMORY_BYTES ->
      exists kept, h' = promoted :: kept /\ kept `sublist_of` before ++ after) /\
     (sum_of_sizes h <= MAX_MEMORY_BYTES -> h' = promoted :: before ++ after)) /\
  (Forall (fun it => item.content it <> content) h ->
   let new := item.mk t_id content type t_stamp (byteLength content) false in
   h' = enforceMemoryLimit (new :: h) /\
   (byteLength content + sum_of_sizes (pinned_entries h) <= MAX_MEMORY_BYTES ->
    exists kept, h' = new :: kept /\ kept `sublist_of` h) /\
   (byteLength content + sum_of_sizes h <= MAX_MEMORY_BYTES -> h' = new :: h)) /\
  (forall old,
     Legacy.clipboardHistory
       (Legacy.addToHistory content type t_stamp t_id old) =
     Legacy.mk_item t_id content type t_stamp (byteLength content)
       :: Legacy.clipboardHistory old).
Proof.
  intros h h'. subst h h'. rewrite addToHistory_history.
  split; [|split; [|done]].
  - intros before existing after Hh Hbefore Hex promoted.
    rewrite Hh.
    rewrite (unshifted_present _ _ _ _ _ (length before) existing)
      by (by apply list_find_first).
    rewrite delete_middle.
    change (item.set_id t_id (item.set_timestamp t_stamp existing))
      with promoted.
    split; [done|]. split; [|split].
    + pose proof (enforceMemoryLimit_sublist (promoted :: before ++ after)) as Hs.
      apply sublist_length in Hs. simpl in Hs.
      rewrite !length_app in *. simpl. lia.
    + intros Hcond. apply enforceMemoryLimit_head.
      rewrite getMemoryUsage_sum. exact Hcond.
    + intros Hfit. apply enforceMemoryLimit_within.
      rewrite <- getMemoryUsage_sum in Hfit.
      rewrite getMemoryUsage_app, getMemoryUsage_cons in Hfit.
      rewrite getMemoryUsage_cons, getMemoryUsage_app. simpl. lia.
  - intros Habsent new.
    rewrite unshifted_absent by (by apply list_find_None).
    split; [done|]. split.
    + intros Hcond. apply enforceMemoryLimit_head. right.
      rewrite getMemoryUsage_sum. exact Hcond.
    + intros Hfit. apply enforceMemoryLimit_within.
      rewrite getMemoryUsage_cons, getMemoryUsage_sum. simpl. lia.
Qed.

Lemma insert_promotes_or_adds_witness :
  clipboardHistory (addToHistory "A" Text 31 30 two_texts) =
    [item.mk 30 "A" Text 31 1 true; item.mk 20 "B" Text 20 1 false] /\
  clipboardHistory (addToHistory "CC" Image 31 30 two_texts) =
    [item.mk 30 "CC" Image 31 2 false;
     item.mk 20 "B" Text 20 1 false; item.mk 10 "A" Text 10 1 true].
Proof.
  split.
  - destruct (proj1 (insert_promotes_or_adds "A" Text 31 30 two_texts)
                [item.mk 20 "B" Text 20 1 false]
                (item.mk 10 "A" Text 10 1 true) [])
      as (_ & _ & _ & Hexact).
    + reflexivity.
    + repeat constructor. simpl. discriminate.
    + reflexivity.
    + apply Hexact. vm_compute. discriminate.
  - destruct (proj1 (proj2 (insert_promotes_or_adds "CC" Image 31 30 two_texts)))
      as (_ & _ & Hexact).
    + repeat constructor; simpl; discriminate.
    + apply Hexact. vm_compute. discriminate.
Defined.

(** A content larger than the limit, put into an empty history, is evicted
    by the enforcement that follows. *)
Lemma oversize_entry_evicted content type t_stamp t_id st :
  clipboardHistory st = [] ->
  byteLength content > MAX_MEMORY_BYTES ->
  clipboardHistory (addToHistory content type t_stamp t_id st) = [].
Proof.
  intros Hempty Hbig. rewrite addToHistory_history, Hempty.
  rewrite unshifted_absent by done.
  rewrite enforceMemoryLimit_turn. unfold iteration.
  rewrite getMemoryUsage_cons, getMemoryUsage_nil. simpl item.size.
  case_bool_decide as Hover; [|lia].
  unfold removeIndex. simpl.
  apply enforceMemoryLimit_within. rewrite getMemoryUsage_nil.
  unfold MAX_MEMORY_BYTES. lia.
Qed.

(** A content of 300 MiB is copied and its entry pinned; a second content of
    300 MiB is copied: the entry evicted is the new one, the only one that is
    not pinned. *)
Lemma new_entry_evicted_behind_pinned c1 c2 ty1 ty2 ts1 id1 ts2 id2 st :
  clipboardHistory st = [] ->
  c1 <> c2 ->
  byteLength c1 = 300 * 1024 * 1024 ->
  byteLength c2 = 300 * 1024 * 1024 ->
  clipboardHistory
    (addToHistory c2 ty2 ts2 id2
       (toggle_pin_item id1 (addToHistory c1 ty1 ts1 id1 st)).2) =
  [item.mk id1 c1 ty1 ts1 (300 * 1024 * 1024) true].
Proof.
  intros Hempty Hne H1 H2.
  assert (clipboardHistory (addToHistory c1 ty1 ts1 id1 st) =
          [item.mk id1 c1 ty1 ts1 (byteLength c1) false]) as Hfirst.
  { rewrite addToHistory_history, Hempty.
    rewrite unshifted_absent by done.
    apply enforceMemoryLimit_within.
    rewrite getMemoryUsage_cons, getMemoryUsage_nil. simpl item.size.
    rewrite H1. unfold MAX_MEMORY_BYTES. lia. }
  rewrite addToHistory_history. unfold toggle_pin_item. rewrite Hfirst.
  pose proof (list_find_first (fun it => item.id it = id1) []
                (item.mk id1 c1 ty1 ts1 (byteLength c1) false) []
                (Forall_nil_2 _) eq_refl) as Hfind.
  rewrite app_nil_l in Hfind. rewrite Hfind. simpl.
  rewrite unshifted_absent.
  2:{ apply list_find_None. by repeat constructor. }
  rewrite enforceMemoryLimit_turn. unfold iteration.
  rewrite !getMemoryUsage_cons, getMemoryUsage_nil. simpl item.size.
  rewrite H1, H2.
  case_bool_decide as Hover; [|unfold MAX_MEMORY_BYTES in Hover; lia].
  unfold removeIndex. simpl.
  rewrite enforceMemoryLimit_within; [done|].
  rewrite getMemoryUsage_cons, getMemoryUsage_nil. simpl item.size.
  unfold MAX_MEMORY_BYTES. lia.
Qed.

(** C1, counterexample. The entry just put in front is not always there
    when [addToHistory] returns, since enforcement can evict it: a content
    of 501 MiB copied into an empty history leaves the
    history empty; and with the entry of a 300 MiB content pinned, copying a
    second content of 300 MiB leaves the pinned entry alone, the new entry
    gone. In the older [main.js], copying the same text twice leaves two
    entries with that content. *)
Lemma insert_may_evict_new_entry :
  clipboardHistory
    (addToHistory (text_of_size "a" (501 * 1024 * 1024)) Text 1000 1000
       (initial clipboard_clear)) = [] /\
  clipboardHistory
    (addToHistory (text_of_size "b" (300 * 1024 * 1024)) Text 3000 3000
       (toggle_pin_item 1000
          (addToHistory (text_of_size "a" (300 * 1024 * 1024)) Text 1000 1000
             (initial clipboard_clear))).2) =
  [item.mk 1000 (text_of_size "a" (300 * 1024 * 1024)) Text 1000
     (300 * 1024 * 1024) true] /\
  Legacy.clipboardHistory
    (Legacy.addToHistory "A" Text 2000 2000
       (Legacy.addToHistory "A" Text 1000 1000
          (Legacy.initial clipboard_clear))) =
  [Legacy.mk_item 2000 "A" Text 2000 1; Legacy.mk_item 1000 "A" Text 1000 1].
Proof.
  split; [|split; [|reflexivity]].
  - apply oversize_entry_evicted; [reflexivity|].
    rewrite byteLength_text_of_size by lia. unfold MAX_MEMORY_BYTES. lia.
  - apply new_entry_evicted_behind_pinned.
    + reflexivity.
    + intros Heq. apply text_of_size_inj in Heq. discriminate Heq.
    + apply byteLength_text_of_size. lia.
    + apply byteLength_text_of_size. lia.
Qed.

(** ** Identifiers *)

Lemma fmap_sublist {A B} (f : A -> B) (l1 l2 : list A) :
  l1 `sublist_of` l2 -> f <$> l1 `sublist_of` f <$> l2.
Proof. induction 1; simpl; by constructor. Qed.

Lemma ids_unique_upto_sublist bound h1 h2 :
  h1 `sublist_of` h2 -> ids_unique_upto bound h2 -> ids_unique_upto bound h1.
Proof.
  intros Hsub [Hnd Hle]. split.
  - eapply sublist_NoDup; [exact Hnd|]. by apply fmap_sublist.
  - apply Forall_forall. intros it Hit. rewrite Forall_forall in Hle.
    apply Hle. by eapply elem_of_sublist.
Qed.

Lemma ids_unique_upto_mono bound bound' h :
  bound <= bound' -> ids_unique_upto bound h -> ids_unique_upto bound' h.
Proof.
  intros Hb [Hnd Hle]. split; [done|].
  eapply Forall_impl; [exact Hle|]. simpl. intros. lia.
Qed.

Lemma ids_unique_upto_cons bound t_id it h :
  bound < t_id -> item.id it = t_id ->
  ids_unique_upto bound h -> ids_unique_upto t_id (it :: h).
Proof.
  intros Hb Hid [Hnd Hle]. split.
  - unfold ids. rewrite fmap_cons. apply NoDup_cons. split; [|done].
    intros (x & Hx & Hin)%list_elem_of_fmap.
    rewrite Forall_forall in Hle. specialize (Hle x Hin). lia.
  - constructor; [lia|].
    eapply Forall_impl; [exact Hle|]. simpl. intros. lia.
Qed.

Lemma unshifted_ids_unique bound content type t_stamp t_id h :
  bound < t_id ->
  ids_unique_upto bound h ->
  ids_unique_upto t_id (unshifted content type t_stamp t_id h).
Proof.
  intros Hb Hinv. unfold unshifted.
  destruct (list_find _ h) as [[i existing]|].
  - apply (ids_unique_upto_cons bound); [done|done|].
    eapply ids_unique_upto_sublist; [apply sublist_delete|done].
  - by apply (ids_unique_upto_cons bound).
Qed.

Lemma addToHistory_ids_unique bound content type t_stamp t_id st :
  bound < t_id ->
  ids_unique_upto bound (clipboardHistory st) ->
  ids_unique_upto t_id
    (clipboardHistory (addToHistory content type t_stamp t_id st)).
Proof.
  intros Hb Hinv. rewrite addToHistory_history.
  eapply ids_unique_upto_sublist; [apply enforceMemoryLimit_sublist|].
  by apply (unshifted_ids_unique bound).
Qed.

Lemma delete_history_item_history itemId st :
  clipboardHistory (delete_history_item itemId st).2 =
  filter (fun it => item.id it <> itemId) (clipboardHistory st).
Proof. reflexivity. Qed.

Lemma toggle_pin_item_ids itemId st :
  ids (clipboardHistory (toggle_pin_item itemId st).2) =
  ids (clipboardHistory st).
Proof.
  unfold toggle_pin_item.
  destruct (list_find _ _) as [[i it]|] eqn:Hfind; [|done].
  apply list_find_Some in Hfind as (Hi & _ & _).
  simpl. unfold ids. rewrite list_fmap_insert. simpl.
  apply list_insert_id. by rewrite list_lookup_fmap, Hi.
Qed.

Lemma toggle_pin_item_ids_unique bound itemId st :
  ids_unique_upto bound (clipboardHistory st) ->
  ids_unique_upto bound (clipboardHistory (toggle_pin_item itemId st).2).
Proof.
  intros [Hnd Hle]. split.
  - by rewrite toggle_pin_item_ids.
  - unfold toggle_pin_item.
    destruct (list_find _ _) as [[i it]|] eqn:Hfind; [|done].
    apply list_find_Some in Hfind as (Hi & _ & _). simpl.
    apply Forall_insert; [done|]. simpl.
    rewrite Forall_forall in Hle. apply Hle.
    apply list_elem_of_lookup. eauto.
Qed.

Lemma run_ids_unique ops : forall bound st,
  ids_unique_upto bound (clipboardHistory st) ->
  clock_advances bound ops ->
  NoDup (ids (clipboardHistory (run ops st))).
Proof.
  induction ops as [|o ops IH]; intros bound st Hinv Hclock.
  - apply Hinv.
  - unfold run. simpl foldl. fold (run ops (apply_op st o)).
    destruct o as [content type t_stamp t_id|itemId|itemId|]; simpl in Hclock.
    + destruct Hclock as [Hb Hrest]. apply (IH t_id); [|done].
      by apply (addToHistory_ids_unique bound).
    + apply (IH bound); [|done]. unfold apply_op.
      rewrite delete_history_item_history.
      eapply ids_unique_upto_sublist; [apply sublist_filter|done].
    + apply (IH bound); [|done]. by apply toggle_pin_item_ids_unique.
    + apply (IH bound); [|done]. split; [constructor|constructor].
Qed.

(** C4, amended. As long as every insertion reads [Date.now()] strictly
    above the reading of the insertion before it (and above the ids already
    in the history), no two entries of the history have the same id,
    whatever insertions, deletions, pin toggles and clears are made; from
    the empty history of a fresh process this asks only that the readings
    go strictly up. The same holds of an insertion in the older
    [main.js]. *)
Theorem ids_unique_while_clock_advances :
  (forall ops bound st,
     NoDup (ids (clipboardHistory st)) ->
     Forall (fun it => item.id it <= bound) (clipboardHistory st) ->
     clock_advances bound ops ->
     NoDup (ids (clipboardHistory (run ops st)))) /\
  (forall bound content type t_stamp t_id old,
     NoDup (Legacy.id <$> Legacy.clipboardHistory old) ->
     Forall (fun it => Legacy.id it <= bound) (Legacy.clipboardHistory old) ->
     bound < t_id ->
     let h' :=
       Legacy.clipboardHistory
         (Legacy.addToHistory content type t_stamp t_id old) in
     NoDup (Legacy.id <$> h') /\
     Forall (fun it => Legacy.id it <= t_id) h').
Proof.
  split.
  - intros ops bound st Hnd Hle Hclock. by apply (run_ids_unique ops bound).
  - intros bound content type t_stamp t_id old Hnd Hle Hb h'. subst h'.
    simpl. split.
    + apply NoDup_cons. split; [|done].
      intros (x & Hx & Hin)%list_elem_of_fmap.
      rewrite Forall_forall in Hle. specialize (Hle x Hin). lia.
    + constructor; [simpl; lia|].
      eapply Forall_impl; [exact Hle|]. simpl. intros. lia.
Qed.

Lemma ids_unique_while_clock_advances_witness :
  NoDup
    (ids
       (clipboardHistory
          (run [Insert "A" Text 1000 1000; Insert "B" Text 2000 2000;
                TogglePin 1000; Insert "A" Text 3000 3000; Delete 2000;
                Insert "C" Image 4000 4000]
             (initial clipboard_clear)))).
Proof.
  apply (proj1 ids_unique_while_clock_advances _ 0).
  - constructor.
  - constructor.
  - simpl. lia.
Defined.

(** C4, counterexample. Two insertions that read the same [Date.now()]
    leave two entries with the same id, and deleting by that id removes
    both. The older [main.js] gives the two entries the same id as
    well. *)
Lemma same_clock_reading_same_id :
  ids
    (clipboardHistory
       (run [Insert "A" Text 1000 1000; Insert "B" Text 1000 1000]
          (initial clipboard_clear))) = [1000; 1000] /\
  clipboardHistory
    (run [Insert "A" Text 1000 1000; Insert "B" Text 1000 1000; Delete 1000]
       (initial clipboard_clear)) = [] /\
  Legacy.id <$>
    Legacy.clipboardHistory
      (Legacy.addToHistory "B" Text 1000 1000
         (Legacy.addToHistory "A" Text 1000 1000
            (Legacy.initial clipboard_clear))) = [1000; 1000].
Proof. repeat split. Qed.

(** ** Clearing, deleting, pinning *)

(** C5. ['clear-history'] empties the history whatever it holds, pinned
    entries included: afterwards the history is the empty list, the reply
    says [memoryUsage: 0], and the memory usage computed from the history is
    0 as well. *)
Theorem clear_history_empties_everything st :
  clipboardHistory (clear_history st).2 = [] /\
  reply.success (clear_history st).1 = true /\
  reply.memoryUsage (clear_history st).1 = Some 0 /\
  get_memory_usage (clear_history st).2 = 0 /\
  snapshot.history (get_clipboard_history (clear_history st).2) = [] /\
  snapshot.memoryUsage (get_clipboard_history (clear_history st).2) = 0.
Proof. repeat split. Qed.

(** C10. ['clear-history'] does more than empty the history: it clears the
    operating-system clipboard (no text, no image) and sets
    [lastClipboardContent] to [null], so ['get-clipboard-history'] then
    reports [currentContent: null]; the window, the interval and the
    messages sent are left as they were, and a poll of the cleared clipboard
    changes nothing. The handler of the older [main.js] clears the clipboard
    and [lastClipboardContent] in the same way. *)
Theorem clear_history_clears_clipboard st :
  let st' := (clear_history st).2 in
  clipboard st' = clipboard_clear /\
  readText (clipboard st') = ""%string /\
  isEmpty (readImage (clipboard st')) = true /\
  lastClipboardContent st' = None /\
  snapshot.currentContent (get_clipboard_history st') = None /\
  mainWindow st' = mainWindow st /\
  clipboardMonitor st' = clipboardMonitor st /\
  sent st' = sent st /\
  (forall t_stamp t_id, tick t_stamp t_id st' = st') /\
  (forall old,
     let old' := (Legacy.clear_history old).2 in
     Legacy.clipboardHistory old' = [] /\
     Legacy.clipboard old' = clipboard_clear /\
     Legacy.lastClipboardContent old' = None /\
     Legacy.currentContent_of old' = None).
Proof. repeat split. Qed.

Lemma filter_id_when_all {A} (P : A -> Prop) `{forall x, Decision (P x)}
    (l : list A) :
  Forall P l -> filter P l = l.
Proof.
  induction 1 as [|x l Hx _ IH]; [done|].
  rewrite filter_cons. case_decide; [|done]. by rewrite IH.
Qed.

Lemma set_clipboardHistory_same st :
  set_clipboardHistory (clipboardHistory st) st = st.
Proof. by destruct st. Qed.

(** C6. ['delete-history-item'] keeps exactly the entries whose id is not
    the given one, in their order, and answers [success: true] exactly when
    some entry had the id. When no entry has the id, the answer is
    [success: false] (a reply, like any other), the state is the state
    before, and the reply carries the same history and the same memory
    usage. *)
Theorem delete_history_item_spec itemId st :
  let h := clipboardHistory st in
  let r := (delete_history_item itemId st).1 in
  let st' := (delete_history_item itemId st).2 in
  clipboardHistory st' `sublist_of` h /\
  (forall it, it ∈ clipboardHistory st' <-> it ∈ h /\ item.id it <> itemId) /\
  (reply.success r = true <-> exists it, it ∈ h /\ item.id it = itemId) /\
  reply.history r = Some (clipboardHistory st') /\
  reply.memoryUsage r = Some (sum_of_sizes (clipboardHistory st')) /\
  reply.error r = None /\
  (Forall (fun it => item.id it <> itemId) h ->
   reply.success r = false /\
   st' = st /\
   reply.history r = Some h /\
   reply.memoryUsage r = Some (sum_of_sizes h)).
Proof.
  intros h r st'. subst h r st'. unfold delete_history_item. simpl.
  split; [apply sublist_filter|]. split; [|split; [|split; [|split; [|split]]]].
  - intros it. rewrite list_elem_of_filter. tauto.
  - rewrite bool_decide_eq_true. split.
    + intros Hlen.
      destruct (decide (Forall (fun it => item.id it <> itemId)
                          (clipboardHistory st))) as [Hall|Hsome].
      * by rewrite filter_id_when_all in Hlen.
      * apply not_Forall_Exists in Hsome; [|apply _].
        apply Exists_exists in Hsome as (it & Hin & Hid).
        exists it. split; [done|].
        destruct (decide (item.id it = itemId)); [done|]. by destruct Hid.
    + intros (it & Hin & Hid) Hlen.
      pose proof (length_filter_lt (fun it => item.id it <> itemId)
                    (clipboardHistory st) it Hin) as Hlt.
      simpl in Hlt. lia.
  - done.
  - by rewrite getMemoryUsage_sum.
  - done.
  - intros Hall. rewrite filter_id_when_all by done.
    rewrite set_clipboardHistory_same, getMemoryUsage_sum.
    split; [|done]. apply bool_decide_eq_false. intros Hne. by apply Hne.
Qed.

Lemma delete_history_item_spec_witness :
  reply.success (delete_history_item 20 two_texts).1 = true /\
  clipboardHistory (delete_history_item 20 two_texts).2 =
    [item.mk 10 "A" Text 10 1 true] /\
  reply.success (delete_history_item 15 two_texts).1 = false /\
  (delete_history_item 15 two_texts).2 = two_texts /\
  reply.memoryUsage (delete_history_item 15 two_texts).1 = Some 2.
Proof.
  destruct (delete_history_item_spec 20 two_texts)
    as (_ & _ & Hyes & _).
  destruct (delete_history_item_spec 15 two_texts)
    as (_ & _ & _ & _ & _ & _ & Hno).
  destruct Hno as (Hfalse & Hsame & _ & Husage).
  - repeat constructor; simpl; lia.
  - split; [|split; [reflexivity|split; [exact Hfalse|split; [exact Hsame|]]]].
    + apply Hyes. exists (item.mk 20 "B" Text 20 1 false).
      split; [|reflexivity]. simpl. apply list_elem_of_here.
    + exact Husage.
Defined.

Lemma insert_middle {A} (l1 l2 : list A) (x y : A) :
  <[length l1 := y]> (l1 ++ x :: l2) = l1 ++ y :: l2.
Proof.
  replace (length l1) with (length l1 + 0)%nat by lia.
  by rewrite insert_app_r.
Qed.

(** C7. ['toggle-pin-item'] finds the first entry with the given id and
    answers [success: true] with the history and the memory usage; in the
    history that entry stands where it stood, with [pinned] flipped and its
    id, content, type, timestamp and size as they were, and every other
    entry is untouched, so the memory usage is what it was. When no entry
    has the id the answer is [success: false] and the state is the state
    before. In both cases nothing else of the state changes. *)
Theorem toggle_pin_item_spec itemId st :
  let h := clipboardHistory st in
  let r := (toggle_pin_item itemId st).1 in
  let st' := (toggle_pin_item itemId st).2 in
  (forall before it after,
     h = before ++ it :: after ->
     Forall (fun x => item.id x <> itemId) before ->
     item.id it = itemId ->
     clipboardHistory st' =
       before ++
       item.mk (item.id it) (item.content it) (item.type it)
         (item.timestamp it) (item.size it) (negb (item.pinned it)) :: after /\
     reply.success r = true /\
     reply.history r = Some (clipboardHistory st') /\
     reply.memoryUsage r = Some (sum_of_sizes h) /\
     sum_of_sizes (clipboardHistory st') = sum_of_sizes h) /\
  (Forall (fun x => item.id x <> itemId) h ->
   r = reply.mk false None None None /\ st' = st) /\
  lastClipboardContent st' = lastClipboardContent st /\
  clipboard st' = clipboard st /\
  mainWindow st' = mainWindow st /\
  clipboardMonitor st' = clipboardMonitor st /\
  sent st' = sent st.
Proof.
  intros h r st'. subst h r st'. split; [|split].
  - intros before it after Hh Hbefore Hid. unfold toggle_pin_item.
    rewrite Hh, (list_find_first _ before it after) by done. simpl.
    rewrite insert_middle. unfold item.set_pinned.
    split; [done|]. split; [done|]. split; [done|].
    rewrite <- !getMemoryUsage_sum, !getMemoryUsage_app, !getMemoryUsage_cons.
    split; [done|]. simpl. lia.
  - intros Hall. unfold toggle_pin_item.
    assert (list_find (fun it => item.id it = itemId) (clipboardHistory st)
            = None) as -> by (by apply list_find_None).
    done.
  - unfold toggle_pin_item. by destruct (list_find _ _) as [[i it]|].
Qed.

Lemma toggle_pin_item_spec_witness :
  clipboardHistory (toggle_pin_item 10 two_texts).2 =
    [item.mk 20 "B" Text 20 1 false; item.mk 10 "A" Text 10 1 false] /\
  reply.success (toggle_pin_item 10 two_texts).1 = true /\
  (toggle_pin_item 15 two_texts).1 = reply.mk false None None None /\
  (toggle_pin_item 15 two_texts).2 = two_texts.
Proof.
  destruct (toggle_pin_item_spec 10 two_texts) as (Hfound & _).
  destruct (toggle_pin_item_spec 15 two_texts) as (_ & Hmissing & _).
  destruct (Hfound [item.mk 20 "B" Text 20 1 false]
              (item.mk 10 "A" Text 10 1 true) [])
    as (Hhistory & Hsuccess & _).
  - reflexivity.
  - repeat constructor. simpl. lia.
  - reflexivity.
  - destruct Hmissing as [Hreply Hstate].
    + repeat constructor; simpl; lia.
    + split; [exact Hhistory|]. split; [exact Hsuccess|].
      split; [exact Hreply|exact Hstate].
Defined.

(** ** Memory accounting over the operations *)

Lemma addToHistory_updates_accurate content type t_stamp t_id st :
  updates_accurate st ->
  updates_accurate (addToHistory content type t_stamp t_id st).
Proof.
  unfold updates_accurate, addToHistory. simpl.
  destruct (mainWindow st); simpl; [|done].
  intros Hsent. constructor; [|done]. simpl. apply getMemoryUsage_sum.
Qed.

Lemma toggle_pin_item_sent itemId st :
  sent (toggle_pin_item itemId st).2 = sent st.
Proof. unfold toggle_pin_item. by destruct (list_find _ _) as [[i it]|]. Qed.

Lemma run_updates_accurate ops : forall st,
  updates_accurate st -> updates_accurate (run ops st).
Proof.
  induction ops as [|o ops IH]; intros st Hst; [done|].
  unfold run. simpl foldl. fold (run ops (apply_op st o)). apply IH.
  destruct o as [content type t_stamp t_id|itemId|itemId|]; simpl.
  - by apply addToHistory_updates_accurate.
  - done.
  - unfold updates_accurate. by rewrite toggle_pin_item_sent.
  - done.
Qed.

(** C9. After any sequence of insertions, deletions, pin toggles and clears
    from the start of the process (with or without a window to notify), the
    memory usage that ['get-memory-usage'] and ['get-clipboard-history']
    report is the sum of the sizes of the entries in the history; the memory
    usage in the reply to a deletion or a clear made then is the sum over
    the history it leaves; and every ['clipboard-updated'] message sent on
    the way reports the sum over the history it carries. *)
Theorem memory_usage_is_sum_of_sizes ops c w :
  let st := run ops (set_mainWindow w (initial c)) in
  get_memory_usage st = sum_of_sizes (clipboardHistory st) /\
  snapshot.memoryUsage (get_clipboard_history st) =
    sum_of_sizes (snapshot.history (get_clipboard_history st)) /\
  (forall itemId,
     reply.memoryUsage (delete_history_item itemId st).1 =
     Some (sum_of_sizes (clipboardHistory (delete_history_item itemId st).2))) /\
  (forall itemId,
     reply.memoryUsage (toggle_pin_item itemId st).1 = None \/
     reply.memoryUsage (toggle_pin_item itemId st).1 =
     Some (sum_of_sizes (clipboardHistory (toggle_pin_item itemId st).2))) /\
  reply.memoryUsage (clear_history st).1 =
    Some (sum_of_sizes (clipboardHistory (clear_history st).2)) /\
  Forall (fun u => update.memoryUsage u = sum_of_sizes (update.history u))
    (sent st).
Proof.
  intros st. split; [apply getMemoryUsage_sum|].
  split; [apply getMemoryUsage_sum|]. split; [|split; [|split]].
  - intros itemId. unfold delete_history_item. simpl.
    by rewrite getMemoryUsage_sum.
  - intros itemId. unfold toggle_pin_item.
    destruct (list_find _ _) as [[i it]|]; simpl; [right|by left].
    by rewrite getMemoryUsage_sum.
  - done.
  - apply run_updates_accurate. constructor.
Qed.

(** ** The poller *)

(** What a handler leaves alone. *)
Lemma addToHistory_frame content type t_stamp t_id st :
  mainWindow (addToHistory content type t_stamp t_id st) = mainWindow st /\
  clipboardMonitor (addToHistory content type t_stamp t_id st)
    = clipboardMonitor st.
Proof.
  unfold addToHistory. simpl. by destruct (mainWindow st) eqn:Hwindow.
Qed.

Lemma tick_frame t_stamp t_id st :
  mainWindow (tick t_stamp t_id st) = mainWindow st /\
  clipboardMonitor (tick t_stamp t_id st) = clipboardMonitor st.
Proof.
  unfold tick.
  repeat (match goal with
          | |- context [if ?b then _ else _] => destruct b eqn:?
          | |- context [match toDataURL ?i with _ => _ end] =>
              destruct (toDataURL i)
          end; simpl);
    try done;
    match goal with
    | |- context [addToHistory ?c ?ty _ _ ?s] =>
        apply (addToHistory_frame c ty t_stamp t_id s)
    end.
Qed.

Lemma toggle_pin_item_frame itemId st :
  mainWindow (toggle_pin_item itemId st).2 = mainWindow st /\
  clipboardMonitor (toggle_pin_item itemId st).2 = clipboardMonitor st.
Proof. unfold toggle_pin_item. by destruct (list_find _ _) as [[i it]|]. Qed.

(** The interval runs only while there is a window: it is set on the
    window's ['ready-to-show'] and cleared on its ['closed']. *)
Lemma monitor_has_window st :
  reachable st -> clipboardMonitor st = true -> mainWindow st = true.
Proof.
  induction 1 as [c|e st st' Hreach IH Hhandle]; [discriminate|].
  destruct e; simpl in Hhandle.
  - destruct (mainWindow st); [discriminate|]. by injection Hhandle as <-.
  - destruct (mainWindow st) eqn:Hw; [|discriminate]. by injection Hhandle as <-.
  - destruct (mainWindow st); [|discriminate].
    injection Hhandle as <-. simpl. discriminate.
  - injection Hhandle as <-. simpl. discriminate.
  - destruct (clipboardMonitor st) eqn:Hm; [|discriminate].
    injection Hhandle as <-.
    destruct (tick_frame t_stamp t_id st) as [-> ->]. auto.
  - injection Hhandle as <-. exact IH.
  - injection Hhandle as <-. exact IH.
  - injection Hhandle as <-. unfold copy_to_clipboard.
    destruct thrown; [exact IH|]. by destruct type as [[]|].
  - injection Hhandle as <-. unfold clear_clipboard.
    by destruct thrown.
  - injection Hhandle as <-. exact IH.
  - injection Hhandle as <-. exact IH.
  - injection Hhandle as <-. exact IH.
  - injection Hhandle as <-.
    destruct (toggle_pin_item_frame itemId st) as [-> ->]. exact IH.
Qed.

(** C8. In a state the process can be in, a turn of the poller that finds
    the clipboard with no text and no image while [lastClipboardContent] is
    not [null] sets [lastClipboardContent] to [null] and sends one
    ['clipboard-updated'] message with [currentContent: null] (and
    [contentType: null]), carrying the history and the memory usage as they
    are; the history, the memory usage and the clipboard are left as they
    were. *)
Theorem external_clear_detected t_stamp t_id st last :
  reachable st ->
  clipboardMonitor st = true ->
  readText (clipboard st) = ""%string ->
  isEmpty (readImage (clipboard st)) = true ->
  lastClipboardContent st = Some last ->
  let st' := tick t_stamp t_id st in
  handle (Tick t_stamp t_id) st = Some st' /\
  lastClipboardContent st' = None /\
  sent st' =
    update.mk (clipboardHistory st) None None
      (sum_of_sizes (clipboardHistory st)) :: sent st /\
  clipboardHistory st' = clipboardHistory st /\
  get_memory_usage st' = get_memory_usage st /\
  clipboard st' = clipboard st.
Proof.
  intros Hreach Hmonitor Htext Himage Hlast st'. subst st'.
  pose proof (monitor_has_window st Hreach Hmonitor) as Hwindow.
  simpl. rewrite Hmonitor. split; [done|].
  unfold tick. rewrite Htext, Himage. simpl.
  rewrite Hwindow, bool_decide_eq_true_2 by (by rewrite Hlast).
  simpl. by rewrite getMemoryUsage_sum.
Qed.

Lemma external_clear_detected_witness :
  let st :=
    {| clipboardHistory := [item.mk 1000 "x" Text 1000 1 false];
       lastClipboardContent := Some "x"%string;
       mainWindow := true;
       clipboardMonitor := true;
       clipboard := clipboard_clear;
       sent := [update.mk [item.mk 1000 "x" Text 1000 1 false]
                  (Some "x"%string) (Some Text) 1] |} in
  lastClipboardContent (tick 2000 2000 st) = None /\
  sent (tick 2000 2000 st) =
    update.mk [item.mk 1000 "x" Text 1000 1 false] None None 1 :: sent st /\
  clipboardHistory (tick 2000 2000 st) = clipboardHistory st.
Proof.
  intros st.
  destruct (external_clear_detected 2000 2000 st "x")
    as (_ & Hlast & Hsent & Hhistory & _).
  - apply (replay_reachable
             [CreateWindow; ReadyToShow; Tick 1000 1000;
              ClipboardChanged clipboard_clear]
             (initial {| readText := "x"; readImage := EmptyImage |}));
      [constructor|reflexivity].
  - reflexivity.
  - reflexivity.
  - reflexivity.
  - reflexivity.
  - split; [exact Hlast|]. split; [exact Hsent|exact Hhistory].
Defined.

(** ** Invariants of the history *)

Lemma list_find_split {A} (P : A -> Prop) `{forall x, Decision (P x)}
    (l : list A) (i : nat) (x : A) :
  list_find P l = Some (i, x) ->
  exists before after,
    l = before ++ x :: after /\ length before = i /\ P x /\
    Forall (fun y => ~ P y) before.
Proof.
  intros (Hi & Hx & Hbefore)%list_find_Some.
  exists (take i l), (drop (S i) l). split; [|split; [|split]].
  - symmetry. by apply take_drop_middle.
  - rewrite length_take. apply lookup_lt_Some in Hi. lia.
  - done.
  - apply Forall_forall. intros y Hy.
    apply list_elem_of_lookup in Hy as [j Hj].
    pose proof (lookup_lt_Some _ _ _ Hj) as Hlt. rewrite length_take in Hlt.
    rewrite lookup_take_lt in Hj by lia. apply (Hbefore j y Hj). lia.
Qed.

Lemma sizes_cached_sublist h1 h2 :
  h1 `sublist_of` h2 -> sizes_cached h2 -> sizes_cached h1.
Proof.
  unfold sizes_cached. intros Hsub Hall. apply Forall_forall. intros it Hit.
  rewrite Forall_forall in Hall. apply Hall. by eapply elem_of_sublist.
Qed.

Lemma contents_distinct_sublist h1 h2 :
  h1 `sublist_of` h2 -> contents_distinct h2 -> contents_distinct h1.
Proof.
  unfold contents_distinct. intros Hsub Hnd.
  eapply sublist_NoDup; [exact Hnd|]. by apply fmap_sublist.
Qed.

Lemma getMemoryUsage_sublist h1 h2 :
  h1 `sublist_of` h2 -> sizes_cached h2 ->
  getMemoryUsage h1 <= getMemoryUsage h2.
Proof.
  induction 1 as [|x l1 l2 _ IH|x l1 l2 _ IH]; intros Hsizes.
  - done.
  - apply Forall_cons in Hsizes as [_ Hsizes].
    rewrite !getMemoryUsage_cons. specialize (IH Hsizes). lia.
  - apply Forall_cons in Hsizes as [Hx Hsizes].
    rewrite getMemoryUsage_cons. specialize (IH Hsizes).
    pose proof (byteLength_nonneg (item.content x)). lia.
Qed.

Lemma unshifted_store_ok content type t_stamp t_id h :
  store_ok h ->
  store_ok (enforceMemoryLimit (unshifted content type t_stamp t_id h)).
Proof.
  intros (Hsizes & Hdistinct & Hfit).
  destruct (list_find (fun it => item.content it = content) h)
    as [[i existing]|] eqn:Hfind.
  - rewrite (unshifted_present _ _ _ _ _ _ _ Hfind).
    destruct (list_find_split _ _ _ _ Hfind)
      as (before & after & -> & <- & Hcontent & _).
    rewrite delete_middle.
    assert (getMemoryUsage
              (item.set_id t_id (item.set_timestamp t_stamp existing)
                 :: before ++ after) <= MAX_MEMORY_BYTES) as Hfit'.
    { rewrite getMemoryUsage_app, getMemoryUsage_cons in Hfit.
      rewrite getMemoryUsage_cons, getMemoryUsage_app. simpl. lia. }
    rewrite enforceMemoryLimit_within by done.
    split; [|split; [|done]].
    + unfold sizes_cached in *. rewrite Forall_app, Forall_cons in Hsizes.
      destruct Hsizes as (Hb & He & Ha).
      rewrite Forall_cons, Forall_app. done.
    + unfold contents_distinct in *.
      rewrite fmap_cons, fmap_app. rewrite fmap_app, fmap_cons in Hdistinct.
      simpl. eapply NoDup_Permutation_proper; [|exact Hdistinct].
      apply Permutation_middle.
  - rewrite (unshifted_absent _ _ _ _ _ Hfind).
    set (new := item.mk t_id content type t_stamp (byteLength content) false).
    assert (sizes_cached (new :: h)) as Hsizes' by (by constructor).
    pose proof (enforceMemoryLimit_sublist (new :: h)) as Hsub.
    split; [|split].
    + by eapply sizes_cached_sublist.
    + eapply contents_distinct_sublist; [exact Hsub|].
      unfold contents_distinct in *. rewrite fmap_cons. apply NoDup_cons.
      split; [|done]. simpl.
      intros (x & Hx & Hin)%list_elem_of_fmap.
      apply list_find_None in Hfind. rewrite Forall_forall in Hfind.
      by apply (Hfind x Hin).
    + destruct (enforceMemoryLimit_bound (new :: h)) as [Hle|Hpinned];
        [done|].
      rewrite <- (pinned_entries_all_pinned _ Hpinned).
      rewrite enforceMemoryLimit_pinned.
      assert (pinned_entries (new :: h) = pinned_entries h) as ->.
      { unfold pinned_entries. rewrite filter_cons.
        case_decide as Hpin; [discriminate Hpin|done]. }
      etrans; [|exact Hfit].
      apply getMemoryUsage_sublist; [apply sublist_filter|done].
Qed.

Lemma toggle_pin_item_history itemId st :
  clipboardHistory (toggle_pin_item itemId st).2 = clipboardHistory st \/
  exists before it after,
    clipboardHistory st = before ++ it :: after /\
    clipboardHistory (toggle_pin_item itemId st).2 =
      before ++ item.set_pinned (negb (item.pinned it)) it :: after.
Proof.
  unfold toggle_pin_item.
  destruct (list_find _ _) as [[i it]|] eqn:Hfind; [right|by left].
  destruct (list_find_split _ _ _ _ Hfind) as (before & after & Hh & <- & _).
  exists before, it, after. split; [done|]. simpl.
  by rewrite Hh, insert_middle.
Qed.

Lemma toggle_pin_item_store_ok itemId st :
  store_ok (clipboardHistory st) ->
  store_ok (clipboardHistory (toggle_pin_item itemId st).2).
Proof.
  destruct (toggle_pin_item_history itemId st)
    as [->|(before & it & after & -> & ->)]; [done|].
  unfold store_ok, sizes_cached, contents_distinct.
  rewrite !fmap_app, !fmap_cons, !Forall_app, !Forall_cons.
  rewrite !getMemoryUsage_app, !getMemoryUsage_cons. done.
Qed.

Lemma filter_store_ok (P : item.t -> Prop) `{forall x, Decision (P x)} h :
  store_ok h -> store_ok (filter P h).
Proof.
  intros (Hsizes & Hdistinct & Hfit).
  pose proof (sublist_filter P h) as Hsub. split; [|split].
  - by eapply sizes_cached_sublist.
  - by eapply contents_distinct_sublist.
  - etrans; [|exact Hfit]. by apply getMemoryUsage_sublist.
Qed.

Lemma store_ok_nil : store_ok [].
Proof.
  split; [constructor|]. split; [constructor|].
  rewrite getMemoryUsage_nil. unfold MAX_MEMORY_BYTES. lia.
Qed.

Lemma addToHistory_store_ok content type t_stamp t_id st :
  store_ok (clipboardHistory st) ->
  store_ok (clipboardHistory (addToHistory content type t_stamp t_id st)).
Proof. rewrite addToHistory_history. apply unshifted_store_ok. Qed.

Lemma tick_store_ok t_stamp t_id st :
  store_ok (clipboardHistory st) ->
  store_ok (clipboardHistory (tick t_stamp t_id st)).
Proof.
  intros Hok. unfold tick.
  repeat (match goal with
          | |- context [if ?b then _ else _] => destruct b eqn:?
          | |- context [match toDataURL ?i with _ => _ end] =>
              destruct (toDataURL i)
          end; simpl);
    try done;
    match goal with
    | |- context [addToHistory ?c ?ty _ _ ?s] =>
        by apply (addToHistory_store_ok c ty t_stamp t_id s)
    end.
Qed.

Lemma handle_store_ok e st st' :
  handle e st = Some st' ->
  store_ok (clipboardHistory st) -> store_ok (clipboardHistory st').
Proof.
  intros Hhandle Hok. destruct e; cbn [handle] in Hhandle.
  - destruct (mainWindow st); [discriminate|]. by injection Hhandle as <-.
  - destruct (mainWindow st); [|discriminate]. by injection Hhandle as <-.
  - destruct (mainWindow st); [|discriminate]. by injection Hhandle as <-.
  - by injection Hhandle as <-.
  - destruct (clipboardMonitor st); [|discriminate].
    injection Hhandle as <-. by apply tick_store_ok.
  - by injection Hhandle as <-.
  - by injection Hhandle as <-.
  - injection Hhandle as <-. unfold copy_to_clipboard.
    destruct thrown; [done|]. by destruct type as [[]|].
  - injection Hhandle as <-. unfold clear_clipboard. by destruct thrown.
  - injection Hhandle as <-. apply store_ok_nil.
  - injection Hhandle as <-.
    by apply (filter_store_ok (fun it => item.id it <> itemId)).
  - by injection Hhandle as <-.
  - injection Hhandle as <-. by apply toggle_pin_item_store_ok.
Qed.

Lemma reachable_store_ok st : reachable st -> store_ok (clipboardHistory st).
Proof.
  induction 1 as [c|e st st' _ IH Hhandle]; [apply store_ok_nil|].
  by eapply handle_store_ok.
Qed.

Lemma run_store_ok ops : forall st,
  store_ok (clipboardHistory st) -> store_ok (clipboardHistory (run ops st)).
Proof.
  induction ops as [|o ops IH]; intros st Hok; [done|].
  unfold run. simpl foldl. fold (run ops (apply_op st o)). apply IH.
  destruct o as [content type t_stamp t_id|itemId|itemId|]; unfold apply_op.
  - by apply addToHistory_store_ok.
  - rewrite delete_history_item_history. by apply filter_store_ok.
  - by apply toggle_pin_item_store_ok.
  - apply store_ok_nil.
Qed.

(** X1. In every state the process can be in, and after any sequence of store
    operations from its start, the sizes of the entries sum to at most
    [MAX_MEMORY_BYTES]: a new entry is not pinned, so enforcement can always
    evict down to the pinned entries, which were within the limit before. *)
Theorem memory_limit_never_exceeded :
  (forall st, reachable st ->
     sum_of_sizes (clipboardHistory st) <= MAX_MEMORY_BYTES) /\
  (forall ops c w,
     sum_of_sizes (clipboardHistory (run ops (set_mainWindow w (initial c))))
       <= MAX_MEMORY_BYTES).
Proof.
  split.
  - intros st Hreach. rewrite <- getMemoryUsage_sum.
    apply (reachable_store_ok st Hreach).
  - intros ops c w. rewrite <- getMemoryUsage_sum.
    apply run_store_ok, store_ok_nil.
Qed.

Lemma memory_limit_never_exceeded_witness :
  sum_of_sizes (clipboardHistory two_texts) <= MAX_MEMORY_BYTES.
Proof.
  apply (proj1 memory_limit_never_exceeded). apply two_texts_reachable.
Defined.

(** X2. In every state the process can be in, and after any sequence of store
    operations from its start, no two entries of the history have the same
    content, and the size of every entry is the byte length of its
    content. *)
Theorem one_entry_per_content :
  (forall st, reachable st ->
     NoDup (item.content <$> clipboardHistory st) /\
     Forall (fun it => item.size it = byteLength (item.content it))
       (clipboardHistory st)) /\
  (forall ops c w,
     let st := run ops (set_mainWindow w (initial c)) in
     NoDup (item.content <$> clipboardHistory st) /\
     Forall (fun it => item.size it = byteLength (item.content it))
       (clipboardHistory st)).
Proof.
  split.
  - intros st Hreach.
    destruct (reachable_store_ok st Hreach) as (Hsizes & Hdistinct & _).
    done.
  - intros ops c w st.
    destruct (run_store_ok ops (set_mainWindow w (initial c)) store_ok_nil)
      as (Hsizes & Hdistinct & _).
    done.
Qed.

Lemma one_entry_per_content_witness :
  NoDup (item.content <$> clipboardHistory two_texts) /\
  Forall (fun it => item.size it = byteLength (item.content it))
    (clipboardHistory two_texts).
Proof.
  apply (proj1 one_entry_per_content). apply two_texts_reachable.
Defined.

(** * Further properties of the main process *)

(** ** Enforcement, again *)

(** X3. Enforcing the memory limit on a history that enforcement has just
    left changes nothing: the loop ends at its first test. In particular a
    second call of [enforceMemoryLimit] after [addToHistory] would evict
    nothing more. *)
Theorem enforceMemoryLimit_idempotent :
  (forall h, enforceMemoryLimit (enforceMemoryLimit h) = enforceMemoryLimit h) /\
  (forall content type t_stamp t_id st,
     enforceMemoryLimit
       (clipboardHistory (addToHistory content type t_stamp t_id st)) =
     clipboardHistory (addToHistory content type t_stamp t_id st)).
Proof.
  assert (forall h, enforceMemoryLimit (enforceMemoryLimit h)
                    = enforceMemoryLimit h) as Hidem.
  { apply (enforceMemoryLimit_turns_ind (fun _ r => enforceMemoryLimit r = r)).
    - intros h Hend. rewrite enforceMemoryLimit_turn. by rewrite Hend.
    - auto. }
  split; [exact Hidem|].
  intros. rewrite addToHistory_history. apply Hidem.
Qed.



(** ** Pins and insertions *)

Lemma elem_of_pinned_contents c h :
  c ∈ pinned_contents h <->
  exists x, x ∈ h /\ item.pinned x = true /\ item.content x = c.
Proof.
  unfold pinned_contents, pinned_entries. rewrite list_elem_of_fmap. split.
  - intros (x & -> & Hx). apply list_elem_of_filter in Hx as [Hp Hin]. eauto.
  - intros (x & Hin & Hp & <-). exists x. split; [done|].
    by apply list_elem_of_filter.
Qed.

Lemma unshifted_pinned_contents c content type t_stamp t_id h :
  c ∈ pinned_contents h ->
  c ∈ pinned_contents (unshifted content type t_stamp t_id h).
Proof.
  rewrite !elem_of_pinned_contents. intros (x & Hin & Hp & Hc).
  destruct (list_find (fun it => item.content it = content) h)
    as [[i existing]|] eqn:Hfind.
  - rewrite (unshifted_present _ _ _ _ _ _ _ Hfind).
    destruct (list_find_split _ _ _ _ Hfind)
      as (before & after & -> & <- & _ & _).
    rewrite delete_middle.
    rewrite elem_of_app, elem_of_cons in Hin.
    destruct Hin as [Hin|[->|Hin]].
    + exists x. rewrite elem_of_cons, elem_of_app. auto.
    + exists (item.set_id t_id (item.set_timestamp t_stamp existing)).
      split; [apply list_elem_of_here|done].
    + exists x. rewrite elem_of_cons, elem_of_app. auto.
  - rewrite (unshifted_absent _ _ _ _ _ Hfind).
    exists x. rewrite elem_of_cons. auto.
Qed.

Lemma addToHistory_pinned_contents c content type t_stamp t_id st :
  c ∈ pinned_contents (clipboardHistory st) ->
  c ∈ pinned_contents
        (clipboardHistory (addToHistory content type t_stamp t_id st)).
Proof.
  intros Hc. rewrite addToHistory_history.
  unfold pinned_contents. rewrite enforceMemoryLimit_pinned.
  by apply unshifted_pinned_contents.
Qed.

(** X5. A pinned content stays in the history, pinned, through any sequence
    of insertions, whatever their sizes: promotion keeps the pin, and
    enforcement evicts no pinned entry. *)
Theorem pinned_content_survives_insertions ops c st :
  insertions_only ops ->
  c ∈ pinned_contents (clipboardHistory st) ->
  c ∈ pinned_contents (clipboardHistory (run ops st)).
Proof.
  revert st. induction ops as [|o ops IH]; intros st Hops Hc; [done|].
  apply Forall_cons in Hops as [Ho Hops].
  unfold run. simpl foldl. fold (run ops (apply_op st o)).
  apply IH; [done|]. destruct o; try done.
  by apply addToHistory_pinned_contents.
Qed.

Lemma pinned_content_survives_insertions_witness :
  "A"%string ∈
    pinned_contents
      (clipboardHistory
         (run [Insert "C" Text 30 30; Insert "A" Image 40 40;
               Insert "D" Text 50 50] two_texts)).
Proof.
  apply pinned_content_survives_insertions.
  - repeat constructor.
  - vm_compute. apply list_elem_of_here.
Defined.

(** ** Pin toggles and deletions, composed *)

Lemma set_clipboardHistory_twice h1 h2 st :
  set_clipboardHistory h1 (set_clipboardHistory h2 st)
  = set_clipboardHistory h1 st.
Proof. reflexivity. Qed.

Lemma toggle_pin_item_found itemId st before it after :
  clipboardHistory st = before ++ it :: after ->
  Forall (fun x => item.id x <> itemId) before ->
  item.id it = itemId ->
  let h' := before ++ item.set_pinned (negb (item.pinned it)) it :: after in
  toggle_pin_item itemId st =
  (reply.mk true (Some h') (Some (getMemoryUsage h')) None,
   set_clipboardHistory h' st).
Proof.
  intros Hh Hbefore Hid h'. subst h'. unfold toggle_pin_item.
  rewrite Hh, (list_find_first _ before it after) by done.
  simpl. by rewrite insert_middle.
Qed.

(** X6. Toggling the pin of an id twice gives back the state there was,
    entry for entry: the second toggle finds the same entry, whatever other
    entries share its id, and both toggles answer alike. *)
Theorem toggle_pin_item_twice itemId st :
  (toggle_pin_item itemId (toggle_pin_item itemId st).2).2 = st /\
  reply.success (toggle_pin_item itemId (toggle_pin_item itemId st).2).1
    = reply.success (toggle_pin_item itemId st).1.
Proof.
  destruct (list_find (fun it => item.id it = itemId) (clipboardHistory st))
    as [[i it]|] eqn:Hfind.
  - destruct (list_find_split _ _ _ _ Hfind)
      as (before & after & Hh & _ & Hid & Hbefore).
    rewrite (toggle_pin_item_found itemId st before it after) by done.
    cbn [fst snd].
    rewrite (toggle_pin_item_found itemId _ before
               (item.set_pinned (negb (item.pinned it)) it) after)
      by done.
    cbn [fst snd reply.success]. split; [|done].
    rewrite set_clipboardHistory_twice.
    unfold item.set_pinned. simpl. rewrite negb_involutive.
    replace (item.mk (item.id it) (item.content it) (item.type it)
               (item.timestamp it) (item.size it) (item.pinned it))
      with it by (by destruct it).
    rewrite <- Hh. apply set_clipboardHistory_same.
  - assert (toggle_pin_item itemId st = (reply.mk false None None None, st))
      as -> by (unfold toggle_pin_item; by rewrite Hfind).
    cbn [fst snd]. unfold toggle_pin_item. by rewrite Hfind.
Qed.

Lemma delete_history_item_state itemId st :
  (delete_history_item itemId st).2 =
  set_clipboardHistory
    (filter (fun it => item.id it <> itemId) (clipboardHistory st)) st.
Proof. reflexivity. Qed.

(** X7. Deleting an id a second time removes nothing more and answers
    [success: false]; and two deletions leave the same state in either
    order. *)
Theorem delete_history_item_composes a b st :
  (delete_history_item a (delete_history_item a st).2).2
    = (delete_history_item a st).2 /\
  reply.success (delete_history_item a (delete_history_item a st).2).1
    = false /\
  (delete_history_item a (delete_history_item b st).2).2
    = (delete_history_item b (delete_history_item a st).2).2.
Proof.
  rewrite !delete_history_item_state. simpl.
  rewrite !set_clipboardHistory_twice. split; [|split].
  - f_equal. rewrite list_filter_filter. apply list_filter_iff. tauto.
  - apply bool_decide_eq_false. intros Hne. apply Hne. f_equal.
    symmetry. rewrite list_filter_filter. apply list_filter_iff. tauto.
  - f_equal. rewrite !list_filter_filter. apply list_filter_iff. tauto.
Qed.

(** X8. When the ids of the history are pairwise different, deleting the id
    of an entry removes that entry alone: the others keep their places, the
    answer is [success: true], and the memory usage reported goes down by
    the size of the entry. *)
Theorem delete_history_item_removes_one before it after st :
  clipboardHistory st = before ++ it :: after ->
  NoDup (ids (clipboardHistory st)) ->
  clipboardHistory (delete_history_item (item.id it) st).2 = before ++ after /\
  reply.success (delete_history_item (item.id it) st).1 = true /\
  reply.memoryUsage (delete_history_item (item.id it) st).1
    = Some (sum_of_sizes (clipboardHistory st) - item.size it).
Proof.
  intros Hh Hnd. unfold delete_history_item. simpl. rewrite Hh in *.
  unfold ids in Hnd. rewrite fmap_app, fmap_cons in Hnd.
  apply NoDup_app in Hnd as (_ & Hdisj & Hnd).
  apply NoDup_cons in Hnd as [Hafter _].
  assert (filter (fun x => item.id x <> item.id it) (before ++ it :: after)
          = before ++ after) as ->.
  { rewrite filter_app, filter_cons.
    case_decide as Hid; [done|].
    rewrite !filter_id_when_all; [done| |].
    - apply Forall_forall. intros x Hx Heq. apply Hafter.
      rewrite <- Heq. by apply list_elem_of_fmap_2.
    - apply Forall_forall. intros x Hx Heq.
      apply (Hdisj (item.id x)); [by apply list_elem_of_fmap_2|].
      rewrite Heq. apply list_elem_of_here. }
  split; [done|]. split.
  - apply bool_decide_eq_true. rewrite !length_app. simpl. lia.
  - f_equal. rewrite <- !getMemoryUsage_sum.
    rewrite !getMemoryUsage_app, getMemoryUsage_cons. lia.
Qed.

Lemma delete_history_item_removes_one_witness :
  clipboardHistory (delete_history_item 20 two_texts).2
    = [item.mk 10 "A" Text 10 1 true] /\
  reply.success (delete_history_item 20 two_texts).1 = true /\
  reply.memoryUsage (delete_history_item 20 two_texts).1 = Some (2 - 1).
Proof.
  apply (delete_history_item_removes_one []
           (item.mk 20 "B" Text 20 1 false)
           [item.mk 10 "A" Text 10 1 true] two_texts).
  - reflexivity.
  - apply (bool_decide_unpack _). vm_compute. exact I.
Defined.

(** ** The poller, case by case *)

Lemma truthy_true s : s <> ""%string -> truthy s = true.
Proof. intros Hs. unfold truthy. by apply bool_decide_eq_true. Qed.

Lemma truthy_false : truthy "" = false.
Proof. reflexivity. Qed.

Lemma addToHistory_clipboard content type t_stamp t_id st :
  clipboard (addToHistory content type t_stamp t_id st) = clipboard st /\
  lastClipboardContent (addToHistory content type t_stamp t_id st)
    = lastClipboardContent st.
Proof.
  unfold addToHistory. simpl. by destruct (mainWindow st) eqn:Hwindow.
Qed.

(** Text on the clipboard. *)
Lemma tick_text t_stamp t_id st :
  readText (clipboard st) <> ""%string ->
  tick t_stamp t_id st =
  if decide (lastClipboardContent st = Some (readText (clipboard st)))
  then st
  else addToHistory (readText (clipboard st)) Text t_stamp t_id
         (set_lastClipboardContent (Some (readText (clipboard st))) st).
Proof.
  intros Htext. unfold tick. rewrite (truthy_true _ Htext). simpl.
  case_decide as Hlast.
  - rewrite bool_decide_eq_false_2 by (by intros []). done.
  - rewrite bool_decide_eq_true_2 by (by intros Heq; apply Hlast).
    by rewrite (truthy_true _ Htext).
Qed.

(** No text, an image. *)
Lemma tick_image t_stamp t_id st :
  readText (clipboard st) = ""%string ->
  isEmpty (readImage (clipboard st)) = false ->
  tick t_stamp t_id st =
  match toDataURL (readImage (clipboard st)) with
  | Some imageData =>
      if decide (imageData <> ""%string
                 /\ lastClipboardContent st <> Some imageData)
      then addToHistory imageData Image t_stamp t_id
             (set_lastClipboardContent (Some imageData) st)
      else st
  | None => st
  end.
Proof.
  intros Htext Himage. unfold tick. rewrite Htext, Himage. simpl.
  destruct (toDataURL (readImage (clipboard st))) as [imageData|]; [|done].
  case_decide as Hnew.
  - destruct Hnew as [Hdata Hlast].
    rewrite (truthy_true _ Hdata).
    rewrite bool_decide_eq_true_2 by (by intros Heq; apply Hlast).
    simpl. by rewrite (truthy_true _ Hdata).
  - destruct (decide (imageData = ""%string)) as [->|Hdata]; [done|].
    rewrite (truthy_true _ Hdata).
    rewrite bool_decide_eq_false_2; [done|].
    intros Hne. apply Hnew. split; [done|]. by intros Heq; apply Hne.
Qed.

(** Neither text nor image. *)
Lemma tick_empty t_stamp t_id st :
  readText (clipboard st) = ""%string ->
  isEmpty (readImage (clipboard st)) = true ->
  tick t_stamp t_id st =
  match lastClipboardContent st with
  | Some _ =>
      let st := set_lastClipboardContent None st in
      if mainWindow st
      then send (update.mk (clipboardHistory st) None None
                   (getMemoryUsage (clipboardHistory st))) st
      else st
  | None => st
  end.
Proof.
  intros Htext Himage. unfold tick. rewrite Htext, Himage. simpl.
  by destruct (lastClipboardContent st).
Qed.

(** X9. While the clipboard holds text, the poller looks at the text alone:
    whatever image the clipboard holds as well, the turn does what it does
    with no image there. It changes nothing when the text is the content
    last seen, and otherwise records the text as last seen and inserts it
    with type text. *)
Theorem tick_text_before_image t_stamp t_id st :
  readText (clipboard st) <> ""%string ->
  let text := readText (clipboard st) in
  (forall img,
     tick t_stamp t_id
       (set_clipboard {| readText := text; readImage := img |} st) =
     set_clipboard {| readText := text; readImage := img |}
       (tick t_stamp t_id
          (set_clipboard {| readText := text; readImage := EmptyImage |} st))) /\
  (lastClipboardContent st = Some text -> tick t_stamp t_id st = st) /\
  (lastClipboardContent st <> Some text ->
   lastClipboardContent (tick t_stamp t_id st) = Some text /\
   clipboardHistory (tick t_stamp t_id st) =
     enforceMemoryLimit (unshifted text Text t_stamp t_id (clipboardHistory st))).
Proof.
  intros Htext text. subst text. split; [|split].
  - intros img. rewrite !tick_text by done. simpl.
    case_decide; [done|].
    unfold addToHistory. simpl. by destruct (mainWindow st).
  - intros Hlast. rewrite tick_text by done. by rewrite decide_True.
  - intros Hlast. rewrite tick_text by done. rewrite decide_False by done.
    split.
    + by rewrite (proj2 (addToHistory_clipboard _ _ _ _ _)).
    + by rewrite addToHistory_history.
Qed.

Lemma tick_text_before_image_witness :
  lastClipboardContent
    (tick 30 30
       (set_clipboard {| readText := "C"; readImage := ImageOf (Some "data:x") |}
          two_texts)) = Some "C"%string /\
  clipboardHistory
    (tick 30 30
       (set_clipboard {| readText := "C"; readImage := ImageOf (Some "data:x") |}
          two_texts)) =
  [item.mk 30 "C" Text 30 1 false; item.mk 20 "B" Text 20 1 false;
   item.mk 10 "A" Text 10 1 true].
Proof.
  destruct (tick_text_before_image 30 30
              (set_clipboard
                 {| readText := "C"; readImage := ImageOf (Some "data:x") |}
                 two_texts)) as (_ & _ & Hnew).
  - simpl. discriminate.
  - apply Hnew. simpl. discriminate.
Defined.

(** X10. With no text and an image on the clipboard, the poller inserts the
    image's data URL with type image when the URL is not empty and is not
    the content last seen. When [toDataURL] throws, when it gives the empty
    string, or when the URL is the content last seen, the turn changes
    nothing at all, [lastClipboardContent] included. *)
Theorem tick_image_only t_stamp t_id st :
  readText (clipboard st) = ""%string ->
  isEmpty (readImage (clipboard st)) = false ->
  (toDataURL (readImage (clipboard st)) = None ->
   tick t_stamp t_id st = st) /\
  (toDataURL (readImage (clipboard st)) = Some ""%string ->
   tick t_stamp t_id st = st) /\
  (forall imageData,
     toDataURL (readImage (clipboard st)) = Some imageData ->
     lastClipboardContent st = Some imageData ->
     tick t_stamp t_id st = st) /\
  (forall imageData,
     toDataURL (readImage (clipboard st)) = Some imageData ->
     imageData <> ""%string ->
     lastClipboardContent st <> Some imageData ->
     lastClipboardContent (tick t_stamp t_id st) = Some imageData /\
     clipboardHistory (tick t_stamp t_id st) =
       enforceMemoryLimit
         (unshifted imageData Image t_stamp t_id (clipboardHistory st))).
Proof.
  intros Htext Himage. rewrite tick_image by done.
  split; [|split; [|split]].
  - by intros ->.
  - intros ->. by rewrite decide_False by (by intros [? _]).
  - intros imageData -> Hlast. by rewrite decide_False by (by intros [_ ?]).
  - intros imageData -> Hdata Hlast. rewrite decide_True by done. split.
    + by rewrite (proj2 (addToHistory_clipboard _ _ _ _ _)).
    + by rewrite addToHistory_history.
Qed.

Lemma tick_image_only_witness :
  tick 30 30
    (set_clipboard {| readText := ""; readImage := ImageOf None |} two_texts)
  = set_clipboard {| readText := ""; readImage := ImageOf None |} two_texts /\
  clipboardHistory
    (tick 30 30
       (set_clipboard
          {| readText := ""; readImage := ImageOf (Some "data:x") |}
          two_texts)) =
  [item.mk 30 "data:x" Image 30 6 false; item.mk 20 "B" Text 20 1 false;
   item.mk 10 "A" Text 10 1 true].
Proof.
  destruct (tick_image_only 30 30
              (set_clipboard {| readText := ""; readImage := ImageOf None |}
                 two_texts)) as (Hthrows & _); [reflexivity|reflexivity|].
  destruct (tick_image_only 30 30
              (set_clipboard
                 {| readText := ""; readImage := ImageOf (Some "data:x") |}
                 two_texts)) as (_ & _ & _ & Hnew); [reflexivity|reflexivity|].
  split.
  - apply Hthrows. reflexivity.
  - apply (Hnew "data:x"%string); [reflexivity|discriminate|discriminate].
Defined.

(** X11. Polling a clipboard that has not changed a second time does
    nothing: whatever the first turn did, the second leaves its state as it
    is. One change of the clipboard gives at most one insertion and one
    message. *)
Theorem tick_twice t1 t2 t3 t4 st :
  tick t3 t4 (tick t1 t2 st) = tick t1 t2 st.
Proof.
  destruct (decide (readText (clipboard st) = ""%string)) as [Htext|Htext].
  - destruct (isEmpty (readImage (clipboard st))) eqn:Himage.
    + rewrite (tick_empty t1 t2 st) by done.
      destruct (lastClipboardContent st) eqn:Hlast.
      * simpl. destruct (mainWindow st);
          rewrite tick_empty by done; done.
      * rewrite tick_empty by done. by rewrite Hlast.
    + rewrite (tick_image t1 t2 st) by done.
      destruct (toDataURL (readImage (clipboard st))) as [d|] eqn:Hurl.
      * case_decide as Hnew.
        -- destruct (addToHistory_clipboard d Image t1 t2
                       (set_lastClipboardContent (Some d) st))
             as [Hclip Hlast].
           rewrite tick_image by (by rewrite Hclip).
           rewrite Hclip. simpl. rewrite Hurl, Hlast. simpl.
           by rewrite decide_False by (by intros [_ ?]).
        -- rewrite tick_image by done. rewrite Hurl.
           by rewrite decide_False.
      * rewrite tick_image by done. by rewrite Hurl.
  - rewrite (tick_text t1 t2 st) by done.
    case_decide as Hlast.
    + rewrite tick_text by done. by rewrite decide_True.
    + destruct (addToHistory_clipboard (readText (clipboard st)) Text t1 t2
                  (set_lastClipboardContent
                     (Some (readText (clipboard st))) st))
        as [Hclip Hlast'].
      rewrite tick_text by (by rewrite Hclip).
      rewrite Hclip. simpl. rewrite Hlast'. simpl.
      by rewrite decide_True.
Qed.

(** X12. The poller does not take the application's own writes for new
    content. After ['copy-to-clipboard'] has written a text that is not
    empty, or ['clear-clipboard'] has cleared the clipboard, the next turn
    of the poller changes nothing; and the handlers themselves leave the
    history as it is, so copying an entry back to the clipboard does not
    move it to the front. *)
Theorem own_writes_not_detected t_stamp t_id st :
  (forall content,
     content <> ""%string ->
     let st' := (copy_to_clipboard content (Some Text) None st).2 in
     tick t_stamp t_id st' = st' /\
     clipboardHistory st' = clipboardHistory st /\
     sent st' = sent st) /\
  (let st' := (clear_clipboard None st).2 in
   tick t_stamp t_id st' = st' /\
   clipboardHistory st' = clipboardHistory st /\
   sent st' = sent st).
Proof.
  split.
  - intros content Hcontent st'. subst st'. simpl. split; [|done].
    rewrite tick_text by done. by rewrite decide_True.
  - simpl. split; [|done]. by rewrite tick_empty.
Qed.

Lemma own_writes_not_detected_witness :
  tick 30 30 (copy_to_clipboard "A" (Some Text) None two_texts).2
    = (copy_to_clipboard "A" (Some Text) None two_texts).2 /\
  clipboardHistory (copy_to_clipboard "A" (Some Text) None two_texts).2
    = clipboardHistory two_texts.
Proof.
  destruct (proj1 (own_writes_not_detected 30 30 two_texts) "A"%string)
    as (Htick & Hhistory & _); [discriminate|].
  split; [exact Htick|exact Hhistory].
Defined.

(** X13. Once the poller has seen the clipboard empty, a text copied again
    is detected even if it is the text last seen before: the turn on the
    empty clipboard forgets the content last seen, so the next turn inserts
    (or promotes) the text. Without the turn in between, the same text is
    not detected. *)
Theorem recopy_after_clear_detected t1 t2 t3 t4 st text :
  text <> ""%string ->
  let copied := {| readText := text; readImage := EmptyImage |} in
  let st1 := tick t1 t2 (set_clipboard clipboard_clear st) in
  let st2 := tick t3 t4 (set_clipboard copied st1) in
  clipboardHistory st1 = clipboardHistory st /\
  lastClipboardContent st2 = Some text /\
  clipboardHistory st2 =
    enforceMemoryLimit (unshifted text Text t3 t4 (clipboardHistory st)) /\
  (lastClipboardContent st = Some text ->
   tick t3 t4 (set_clipboard copied st) = set_clipboard copied st).
Proof.
  intros Htext copied st1 st2.
  assert (clipboardHistory st1 = clipboardHistory st /\
          lastClipboardContent st1 = None) as [Hh1 Hl1].
  { subst st1. rewrite tick_empty by done. simpl.
    destruct (lastClipboardContent st) eqn:Hlast; simpl;
      [by destruct (mainWindow st)|done]. }
  split; [done|]. subst st2.
  rewrite !tick_text by done. simpl. rewrite Hl1.
  rewrite decide_False by done.
  rewrite (proj2 (addToHistory_clipboard _ _ _ _ _)), addToHistory_history.
  simpl. rewrite Hh1. split; [done|]. split; [done|].
  intros Hlast. by rewrite decide_True.
Qed.

Lemma recopy_after_clear_detected_witness :
  clipboardHistory
    (tick 50 50
       (set_clipboard {| readText := "B"; readImage := EmptyImage |}
          (tick 40 40 (set_clipboard clipboard_clear two_texts)))) =
  [item.mk 50 "B" Text 50 1 false; item.mk 10 "A" Text 10 1 true].
Proof.
  destruct (recopy_after_clear_detected 40 40 50 50 two_texts "B")
    as (_ & _ & Hhistory & _); [discriminate|].
  rewrite Hhistory. reflexivity.
Defined.

(** ** What the events leave alone *)

Lemma tick_sent t_stamp t_id st :
  sent (tick t_stamp t_id st) = sent st \/
  exists u,
    sent (tick t_stamp t_id st) = u :: sent st /\
    update.history u = clipboardHistory (tick t_stamp t_id st) /\
    update.memoryUsage u = sum_of_sizes (update.history u).
Proof.
  unfold tick, addToHistory.
  repeat (match goal with
          | |- context [if ?b then _ else _] => destruct b eqn:?
          | |- context [match toDataURL ?i with _ => _ end] =>
              destruct (toDataURL i)
          end; simpl);
    try (by left);
    right; eexists; (split; [reflexivity|]); simpl;
    split; try done; apply getMemoryUsage_sum.
Qed.

Lemma quiet_events_keep_history e st st' :
  handle e st = Some st' ->
  touches_history e = false -> clipboardHistory st' = clipboardHistory st.
Proof.
  intros Hhandle Hquiet.
  destruct e; try discriminate Hquiet; cbn [handle] in Hhandle.
  - destruct (mainWindow st); [discriminate|]. by injection Hhandle as <-.
  - destruct (mainWindow st); [|discriminate]. by injection Hhandle as <-.
  - destruct (mainWindow st); [|discriminate]. by injection Hhandle as <-.
  - by injection Hhandle as <-.
  - by injection Hhandle as <-.
  - by injection Hhandle as <-.
  - injection Hhandle as <-. unfold copy_to_clipboard.
    destruct thrown; [done|]. by destruct type as [[]|].
  - injection Hhandle as <-. unfold clear_clipboard. by destruct thrown.
  - by injection Hhandle as <-.
Qed.

(** X14. Only the poller sends ['clipboard-updated']: no IPC handler and no
    window event adds a message, so a deletion, a pin toggle or a clear is
    known to the renderer through the handler's reply alone. A turn of the
    poller sends at most one message, and the message carries the history as
    the turn leaves it, with its memory usage. The history itself changes
    only in a turn of the poller, a deletion, a pin toggle or a clear. *)
Theorem only_the_poller_notifies e st st' :
  handle e st = Some st' ->
  (is_tick e = false -> sent st' = sent st) /\
  (sent st' = sent st \/
   exists u,
     sent st' = u :: sent st /\
     update.history u = clipboardHistory st' /\
     update.memoryUsage u = sum_of_sizes (clipboardHistory st')) /\
  (touches_history e = false -> clipboardHistory st' = clipboardHistory st).
Proof.
  intros Hhandle.
  assert (sent st' = sent st -> clipboardHistory st' = clipboardHistory st ->
          (is_tick e = false -> sent st' = sent st) /\
          (sent st' = sent st \/
           exists u,
             sent st' = u :: sent st /\
             update.history u = clipboardHistory st' /\
             update.memoryUsage u = sum_of_sizes (clipboardHistory st')) /\
          (touches_history e = false ->
           clipboardHistory st' = clipboardHistory st)) as Hquiet by auto.
  destruct e; cbn [handle] in Hhandle.
  - destruct (mainWindow st); [discriminate|].
    injection Hhandle as <-. by apply Hquiet.
  - destruct (mainWindow st); [|discriminate].
    injection Hhandle as <-. by apply Hquiet.
  - destruct (mainWindow st); [|discriminate].
    injection Hhandle as <-. by apply Hquiet.
  - injection Hhandle as <-. by apply Hquiet.
  - destruct (clipboardMonitor st); [|discriminate].
    injection Hhandle as <-. split; [done|]. split; [|done].
    destruct (tick_sent t_stamp t_id st) as [Hsame|(u & Hu & Hh & Hm)];
      [by left|right].
    exists u. by rewrite <- Hh.
  - injection Hhandle as <-. by apply Hquiet.
  - injection Hhandle as <-. by apply Hquiet.
  - injection Hhandle as <-. apply Hquiet;
      unfold copy_to_clipboard; destruct thrown; try done;
      by destruct type as [[]|].
  - injection Hhandle as <-. apply Hquiet;
      unfold clear_clipboard; by destruct thrown.
  - injection Hhandle as <-. split; [done|]. split; [by left|done].
  - injection Hhandle as <-. split; [done|]. split; [by left|done].
  - injection Hhandle as <-. by apply Hquiet.
  - injection Hhandle as <-. split; [|split; [left|done]];
      by rewrite ?toggle_pin_item_sent.
Qed.

Lemma only_the_poller_notifies_witness :
  sent (delete_history_item 20 two_texts).2 = sent two_texts /\
  clipboardHistory (clear_clipboard None two_texts).2
    = clipboardHistory two_texts.
Proof.
  split.
  - apply (only_the_poller_notifies (DeleteHistoryItem 20) two_texts);
      reflexivity.
  - apply (only_the_poller_notifies (ClearClipboard None) two_texts);
      reflexivity.
Defined.

(** ** What the history holds *)

Lemma tick_history_cases t_stamp t_id st :
  clipboardHistory (tick t_stamp t_id st) = clipboardHistory st \/
  exists content type,
    content <> ""%string /\
    clipboardHistory (tick t_stamp t_id st) =
      enforceMemoryLimit
        (unshifted content type t_stamp t_id (clipboardHistory st)).
Proof.
  destruct (decide (readText (clipboard st) = ""%string)) as [Htext|Htext].
  - destruct (isEmpty (readImage (clipboard st))) eqn:Himage.
    + left. rewrite tick_empty by done.
      destruct (lastClipboardContent st); [|done].
      simpl. by destruct (mainWindow st).
    + rewrite tick_image by done.
      destruct (toDataURL (readImage (clipboard st))) as [d|]; [|by left].
      case_decide as Hnew; [right|by left].
      exists d, Image. split; [apply Hnew|]. by rewrite addToHistory_history.
  - rewrite tick_text by done. case_decide; [by left|right].
    exists (readText (clipboard st)), Text. split; [done|].
    by rewrite addToHistory_history.
Qed.

Lemma unshifted_elem x content type t_stamp t_id h :
  x ∈ unshifted content type t_stamp t_id h ->
  item.content x = content \/ x ∈ h.
Proof.
  destruct (list_find (fun it => item.content it = content) h)
    as [[i existing]|] eqn:Hfind.
  - rewrite (unshifted_present _ _ _ _ _ _ _ Hfind).
    destruct (list_find_split _ _ _ _ Hfind)
      as (before & after & -> & <- & Hcontent & _).
    rewrite delete_middle, elem_of_cons, !elem_of_app, elem_of_cons.
    intros [->|[Hx|Hx]]; auto.
  - rewrite (unshifted_absent _ _ _ _ _ Hfind), elem_of_cons.
    intros [->|Hx]; auto.
Qed.

Lemma reachable_contents_nonempty st :
  reachable st ->
  Forall (fun it => item.content it <> ""%string) (clipboardHistory st).
Proof.
  induction 1 as [c|e st st' _ IH Hhandle]; [constructor|].
  destruct (decide (touches_history e = false)) as [Hquiet|Hloud].
  - by rewrite (quiet_events_keep_history e st st' Hhandle Hquiet).
  - destruct e; try done; cbn [handle] in Hhandle.
    + destruct (clipboardMonitor st); [|discriminate].
      injection Hhandle as <-.
      destruct (tick_history_cases t_stamp t_id st)
        as [->|(content & type & Hcontent & ->)]; [done|].
      apply Forall_forall. intros x Hx.
      pose proof (elem_of_sublist _ _ _ Hx
                    (enforceMemoryLimit_sublist
                       (unshifted content type t_stamp t_id
                          (clipboardHistory st)))) as Hx'.
      rewrite Forall_forall in IH.
      apply unshifted_elem in Hx' as [->|Hx']; auto.
    + injection Hhandle as <-. constructor.
    + injection Hhandle as <-.
      change (Forall (fun it => item.content it <> ""%string)
                (filter (fun it => item.id it <> itemId) (clipboardHistory st))).
      apply Forall_forall. intros x [_ Hx]%list_elem_of_filter.
      rewrite Forall_forall in IH. auto.
    + injection Hhandle as <-.
      destruct (toggle_pin_item_history itemId st)
        as [->|(before & it & after & Hh & ->)]; [done|].
      rewrite Hh in IH. rewrite Forall_app, Forall_cons in *. done.
Qed.

Lemma byteLength_positive content :
  content <> ""%string -> 1 <= byteLength content.
Proof.
  destruct content; [done|]. intros _. rewrite byteLength_String.
  pose proof (byteLength_nonneg content). lia.
Qed.

(** X15. In every state the process can be in, no entry of the history has
    the empty string as its content, and every entry has a size of at least
    one byte: the poller inserts only content that is not empty. *)
Theorem history_entries_nonempty st :
  reachable st ->
  Forall (fun it => item.content it <> ""%string /\ 1 <= item.size it)
    (clipboardHistory st).
Proof.
  intros Hreach.
  pose proof (reachable_contents_nonempty st Hreach) as Hcontents.
  destruct (reachable_store_ok st Hreach) as (Hsizes & _).
  unfold sizes_cached in Hsizes.
  rewrite Forall_forall in *. intros x Hx. split; [by apply Hcontents|].
  rewrite (Hsizes x Hx). apply byteLength_positive. by apply Hcontents.
Qed.

Lemma history_entries_nonempty_witness :
  Forall (fun it => item.content it <> ""%string /\ 1 <= item.size it)
    (clipboardHistory two_texts).
Proof. apply history_entries_nonempty. apply two_texts_reachable. Defined.

(** ** Newest first *)

Lemma sublist_StronglySorted {A} (R : A -> A -> Prop) (l1 l2 : list A) :
  l1 `sublist_of` l2 -> StronglySorted R l2 -> StronglySorted R l1.
Proof.
  induction 1 as [|x l1 l2 Hsub IH|x l1 l2 Hsub IH]; intros Hsorted.
  - done.
  - apply StronglySorted_cons in Hsorted as [Hx Hsorted].
    apply StronglySorted_cons. split; [|by apply IH].
    apply Forall_forall. intros y Hy. rewrite Forall_forall in Hx.
    apply Hx. by eapply elem_of_sublist.
  - apply StronglySorted_cons in Hsorted as [_ Hsorted]. by apply IH.
Qed.

Lemma newest_first_upto_sublist bound h1 h2 :
  h1 `sublist_of` h2 -> newest_first_upto bound h2 -> newest_first_upto bound h1.
Proof.
  intros Hsub [Hsorted Hle]. split.
  - eapply sublist_StronglySorted; [|exact Hsorted]. by apply fmap_sublist.
  - apply Forall_forall. intros it Hit. rewrite Forall_forall in Hle.
    apply Hle. by eapply elem_of_sublist.
Qed.

Lemma newest_first_upto_cons bound t_stamp it h :
  bound < t_stamp -> item.timestamp it = t_stamp ->
  newest_first_upto bound h -> newest_first_upto t_stamp (it :: h).
Proof.
  intros Hb Hstamp [Hsorted Hle]. split.
  - unfold newest_first, timestamps. rewrite fmap_cons.
    apply StronglySorted_cons. split; [|done].
    apply Forall_fmap, Forall_forall. intros x Hx. simpl.
    rewrite Forall_forall in Hle. specialize (Hle x Hx). lia.
  - constructor; [lia|].
    eapply Forall_impl; [exact Hle|]. simpl. intros. lia.
Qed.

Lemma addToHistory_newest_first bound content type t_stamp t_id st :
  bound < t_stamp ->
  newest_first_upto bound (clipboardHistory st) ->
  newest_first_upto t_stamp
    (clipboardHistory (addToHistory content type t_stamp t_id st)).
Proof.
  intros Hb Hinv. rewrite addToHistory_history.
  eapply newest_first_upto_sublist; [apply enforceMemoryLimit_sublist|].
  unfold unshifted. destruct (list_find _ _) as [[i existing]|].
  - apply (newest_first_upto_cons bound); [done|done|].
    eapply newest_first_upto_sublist; [apply sublist_delete|done].
  - by apply (newest_first_upto_cons bound).
Qed.

Lemma toggle_pin_item_newest_first bound itemId st :
  newest_first_upto bound (clipboardHistory st) ->
  newest_first_upto bound (clipboardHistory (toggle_pin_item itemId st).2).
Proof.
  destruct (toggle_pin_item_history itemId st)
    as [->|(before & it & after & -> & ->)]; [done|].
  unfold newest_first_upto, newest_first, timestamps.
  rewrite !fmap_app, !fmap_cons, !Forall_app, !Forall_cons. done.
Qed.

(** X16. As long as every insertion reads the clock (for the timestamp)
    strictly above the reading of the insertion before it, the history is in
    order of recency: the timestamp of every entry is strictly above the
    timestamps of the entries behind it, whatever insertions, promotions,
    evictions, deletions, pin toggles and clears are made. *)
Theorem history_newest_first ops bound st :
  newest_first (clipboardHistory st) ->
  Forall (fun it => item.timestamp it <= bound) (clipboardHistory st) ->
  stamps_advance bound ops ->
  newest_first (clipboardHistory (run ops st)).
Proof.
  intros Hsorted Hle Hclock.
  enough (exists bound', newest_first_upto bound' (clipboardHistory (run ops st)))
    as [bound' [Hdone _]] by done.
  assert (newest_first_upto bound (clipboardHistory st)) as Hinv by done.
  clear Hsorted Hle. revert bound st Hinv Hclock.
  induction ops as [|o ops IH]; intros bound st Hinv Hclock; [by exists bound|].
  unfold run. simpl foldl. fold (run ops (apply_op st o)).
  destruct o as [content type t_stamp t_id|itemId|itemId|]; simpl in Hclock.
  - destruct Hclock as [Hb Hrest]. apply (IH t_stamp); [|done].
    by apply (addToHistory_newest_first bound).
  - apply (IH bound); [|done]. unfold apply_op.
    rewrite delete_history_item_history.
    eapply newest_first_upto_sublist; [apply sublist_filter|done].
  - apply (IH bound); [|done]. by apply toggle_pin_item_newest_first.
  - apply (IH bound); [|done]. split; constructor.
Qed.

Lemma history_newest_first_witness :
  newest_first
    (clipboardHistory
       (run [Insert "A" Text 1000 1000; Insert "B" Text 2000 2000;
             TogglePin 1000; Insert "A" Text 3000 3000; Delete 2000;
             Insert "C" Image 4000 4000]
          (initial clipboard_clear))).
Proof.
  apply (history_newest_first _ 0).
  - constructor.
  - constructor.
  - simpl. lia.
Defined.

(** * The older main process *)

Lemma Legacy_foldl_size_acc (h : list Legacy.item) (acc : Z) :
  foldl (fun total it => total + Legacy.size it) acc h
  = acc + foldl (fun total it => total + Legacy.size it) 0 h.
Proof.
  revert acc. induction h as [|it rest IH]; intros acc; simpl; [lia|].
  rewrite IH, (IH (0 + Legacy.size it)). lia.
Qed.

Lemma Legacy_getMemoryUsage_cons it h :
  Legacy.getMemoryUsage (it :: h) = Legacy.size it + Legacy.getMemoryUsage h.
Proof.
  unfold Legacy.getMemoryUsage. simpl. rewrite Legacy_foldl_size_acc. lia.
Qed.

Lemma Legacy_addToHistory_history content type t_stamp t_id st :
  Legacy.clipboardHistory (Legacy.addToHistory content type t_stamp t_id st)
  = Legacy.mk_item t_id content type t_stamp (byteLength content)
      :: Legacy.clipboardHistory st.
Proof. reflexivity. Qed.

(** X17. In the older [main.js] every insertion stays: after any sequence
    of insertions the history holds the inserted contents, the last one
    first, in front of what it held, repeated contents included; it is
    longer by the number of insertions, and the memory usage is larger by
    the bytes of all the inserted contents. Nothing bounds either. *)
Theorem legacy_history_only_grows entries st :
  let st' := Legacy.insert_all entries st in
  let contents := (fun e => e.1.1.1) <$> entries in
  Legacy.content <$> Legacy.clipboardHistory st'
    = reverse contents ++ (Legacy.content <$> Legacy.clipboardHistory st) /\
  length (Legacy.clipboardHistory st')
    = (length entries + length (Legacy.clipboardHistory st))%nat /\
  Legacy.getMemoryUsage (Legacy.clipboardHistory st')
    = total_bytes contents + Legacy.getMemoryUsage (Legacy.clipboardHistory st).
Proof.
  revert st. induction entries as [|[[[content type] t_stamp] t_id] rest IH];
    intros st; [done|].
  unfold Legacy.insert_all. simpl foldl.
  fold (Legacy.insert_all rest (Legacy.addToHistory content type t_stamp t_id st)).
  destruct (IH (Legacy.addToHistory content type t_stamp t_id st))
    as (Hcontents & Hlength & Husage).
  rewrite Legacy_addToHistory_history in *. cbn zeta in *.
  rewrite Hcontents, Hlength, Husage. rewrite !fmap_cons. split; [|split].
  - rewrite reverse_cons, <- app_assoc. done.
  - simpl. lia.
  - rewrite Legacy_getMemoryUsage_cons. simpl. lia.
Qed.

Lemma Legacy_addToHistory_frame content type t_stamp t_id st :
  Legacy.clipboard (Legacy.addToHistory content type t_stamp t_id st)
    = Legacy.clipboard st /\
  Legacy.lastClipboardContent (Legacy.addToHistory content type t_stamp t_id st)
    = Legacy.lastClipboardContent st.
Proof. done. Qed.

(** X18. The older poller does not notice that the clipboard was emptied: a
    turn on a clipboard with no text and no image changes nothing, the
    content last seen included. So when the text last seen is copied again
    after the clipboard was cleared, no turn detects it, and the history
    stays as it was. *)
Theorem legacy_clear_not_detected t1 t2 t3 t4 st text :
  text <> ""%string ->
  Legacy.lastClipboardContent st = Some text ->
  let copied := {| readText := text; readImage := EmptyImage |} in
  let st1 := Legacy.tick t1 t2 (Legacy.set_clipboard clipboard_clear st) in
  let st2 := Legacy.tick t3 t4 (Legacy.set_clipboard copied st1) in
  st1 = Legacy.set_clipboard clipboard_clear st /\
  st2 = Legacy.set_clipboard copied st /\
  Legacy.clipboardHistory st2 = Legacy.clipboardHistory st.
Proof.
  intros Htext Hlast copied st1 st2.
  assert (st1 = Legacy.set_clipboard clipboard_clear st) as Hst1 by done.
  split; [done|]. subst st2. rewrite Hst1.
  unfold Legacy.tick. simpl. rewrite (truthy_true _ Htext), Hlast.
  rewrite bool_decide_eq_false_2 by (by intros []). simpl.
  done.
Qed.

Lemma legacy_clear_not_detected_witness :
  Legacy.clipboardHistory
    (Legacy.tick 30 30
       (Legacy.set_clipboard {| readText := "A"; readImage := EmptyImage |}
          (Legacy.tick 20 20
             (Legacy.set_clipboard clipboard_clear
                (Legacy.tick 10 10
                   (Legacy.initial
                      {| readText := "A"; readImage := EmptyImage |}))))))
  = [Legacy.mk_item 10 "A" Text 10 1].
Proof.
  destruct (legacy_clear_not_detected 20 20 30 30
              (Legacy.tick 10 10
                 (Legacy.initial {| readText := "A"; readImage := EmptyImage |}))
              "A") as (_ & _ & Hhistory); [discriminate|reflexivity|].
  rewrite Hhistory. reflexivity.
Defined.

(** * The renderer *)

(** ** The list shown *)

Lemma compare_display_order a b :
  Renderer.compare a b <= 0 <-> in_display_order a b.
Proof.
  unfold Renderer.compare, in_display_order.
  destruct (item.pinned a), (item.pinned b); simpl; split;
    try (intros [[? ?]|[? ?]]); try discriminate; try lia; intros; try lia;
    (right; split; [done|lia]) || (by left).
Qed.

Lemma in_display_order_total a b :
  ~ in_display_order a b -> in_display_order b a.
Proof.
  rewrite <- !compare_display_order. unfold Renderer.compare.
  destruct (item.pinned a), (item.pinned b); simpl; lia.
Qed.

Lemma in_display_order_trans a b c :
  in_display_order a b -> in_display_order b c -> in_display_order a c.
Proof.
  unfold in_display_order.
  destruct (item.pinned a), (item.pinned b), (item.pinned c);
    intros [[? ?]|[? ?]] [[? ?]|[? ?]]; try discriminate;
    (by left) || (right; split; [done|lia]).
Qed.

Lemma insert_sorted_Permutation compareFn x l :
  Renderer.insert_sorted compareFn x l ≡ₚ x :: l.
Proof.
  induction l as [|y l IH]; simpl; [done|].
  destruct (compareFn x y <=? 0); [done|].
  rewrite IH. apply Permutation_swap.
Qed.

Lemma sort_Permutation compareFn l : Renderer.sort compareFn l ≡ₚ l.
Proof.
  induction l as [|x l IH]; simpl; [done|].
  by rewrite insert_sorted_Permutation, IH.
Qed.

Lemma insert_sorted_StronglySorted x l :
  StronglySorted in_display_order l ->
  StronglySorted in_display_order (Renderer.insert_sorted Renderer.compare x l).
Proof.
  induction 1 as [|y l Hsorted IH Hy]; simpl.
  - repeat constructor.
  - destruct (Z.leb_spec (Renderer.compare x y) 0) as [Hle|Hgt].
    + apply compare_display_order in Hle.
      constructor; [by constructor|]. constructor; [done|].
      eapply Forall_impl; [exact Hy|]. simpl. intros z Hz.
      by eapply in_display_order_trans.
    + assert (in_display_order y x) as Hyx.
      { apply in_display_order_total. rewrite <- compare_display_order. lia. }
      constructor; [done|].
      rewrite insert_sorted_Permutation. by constructor.
Qed.

Lemma sort_StronglySorted l :
  StronglySorted in_display_order (Renderer.sort Renderer.compare l).
Proof.
  induction l as [|x l IH]; simpl; [constructor|].
  by apply insert_sorted_StronglySorted.
Qed.

(** X19. The list the renderer shows holds exactly the entries of its
    history that pass the type filter and the search, each as often as the
    history holds it, with the pinned entries first and, among the pinned
    and among the others, the newer entries first. With a search term only
    text entries are shown; with no search term and no type filter every
    entry is. *)
Theorem getFilteredHistory_shows_sorted toLowerCase st :
  let shown := Renderer.getFilteredHistory toLowerCase st in
  shown ≡ₚ filter (fun it => Renderer.shown toLowerCase st it = true)
             (Renderer.clipboardHistory st) /\
  StronglySorted in_display_order shown /\
  (forall it, it ∈ shown -> Renderer.searchTerm st <> ""%string ->
     item.type it = Text) /\
  (Renderer.searchTerm st = ""%string -> Renderer.filterType st = Renderer.All ->
   shown ≡ₚ Renderer.clipboardHistory st).
Proof.
  intros shown. subst shown. unfold Renderer.getFilteredHistory.
  split; [|split; [|split]].
  - by rewrite sort_Permutation.
  - eapply sublist_StronglySorted; [apply sublist_filter|].
    apply sort_StronglySorted.
  - intros it [Hshown _]%list_elem_of_filter Hterm.
    unfold Renderer.shown in Hshown.
    rewrite (truthy_true _ Hterm) in Hshown. simpl in Hshown.
    destruct (item.type it); [done|].
    by rewrite andb_false_r in Hshown.
  - intros Hterm Hfilter. rewrite sort_Permutation.
    rewrite filter_id_when_all; [done|].
    apply Forall_forall. intros it _. unfold Renderer.shown.
    by rewrite Hterm, Hfilter.
Qed.

Lemma getFilteredHistory_shows_sorted_witness :
  Renderer.getFilteredHistory (fun s => s)
    (Renderer.set_history (clipboardHistory two_texts) 2 Renderer.initial)
  ≡ₚ clipboardHistory two_texts.
Proof.
  apply (getFilteredHistory_shows_sorted (fun s => s)); reflexivity.
Defined.

Lemma timestamps_injective h x y :
  newest_first h -> x ∈ h -> y ∈ h ->
  item.timestamp x = item.timestamp y -> x = y.
Proof.
  unfold newest_first, timestamps.
  induction h as [|z h IH]; [by intros _ []%elem_of_nil|].
  rewrite fmap_cons, StronglySorted_cons, Forall_fmap, Forall_forall.
  intros [Hz Hsorted]. rewrite !elem_of_cons.
  intros [->|Hx] [->|Hy] Heq; auto.
  - specialize (Hz y Hy). simpl in Hz. lia.
  - specialize (Hz x Hx). simpl in Hz. lia.
Qed.

Lemma newest_first_display_order h :
  newest_first h ->
  StronglySorted in_display_order (pinned_entries h ++ unpinned_entries h).
Proof.
  intros Hnewest.
  assert (forall P `{forall x, Decision (P x)},
            (forall x y, P x -> P y -> item.pinned x = item.pinned y) ->
            StronglySorted in_display_order (filter P h)) as Hgroup.
  { intros P ? Hsame. unfold newest_first, timestamps in Hnewest.
    induction h as [|z h IH]; [constructor|].
    rewrite fmap_cons in Hnewest.
    apply StronglySorted_cons in Hnewest as [Hz Hsorted].
    rewrite filter_cons. case_decide as Hpz; [|by apply IH].
    constructor; [by apply IH|].
    apply Forall_forall. intros y [Hpy Hy]%list_elem_of_filter.
    right. split; [by apply Hsame|].
    rewrite Forall_fmap, Forall_forall in Hz. specialize (Hz y Hy).
    simpl in Hz. lia. }
  apply StronglySorted_app. split; [|split].
  - intros x y [Hx _]%list_elem_of_filter [Hy _]%list_elem_of_filter.
    by left.
  - apply Hgroup. congruence.
  - apply Hgroup. congruence.
Qed.

Lemma pinned_unpinned_Permutation h :
  pinned_entries h ++ unpinned_entries h ≡ₚ h.
Proof.
  unfold pinned_entries, unpinned_entries.
  assert (filter (fun it => item.pinned it = false) h
          = filter (fun it => ~ item.pinned it = true) h) as ->.
  { apply list_filter_iff. intros x. destruct (item.pinned x); naive_solver. }
  apply filter_app_complement.
Qed.

(** X20. When the history is in order of recency (as it is while the clock
    advances between insertions), the sort of the renderer gives the pinned
    entries, in the order of the history, followed by the entries that are
    not pinned, in the order of the history; the list shown is what the
    filter leaves of that. *)
Theorem sort_of_recent_history toLowerCase st :
  newest_first (Renderer.clipboardHistory st) ->
  Renderer.sort Renderer.compare (Renderer.clipboardHistory st)
    = pinned_entries (Renderer.clipboardHistory st)
        ++ unpinned_entries (Renderer.clipboardHistory st) /\
  Renderer.getFilteredHistory toLowerCase st
    = filter (fun it => Renderer.shown toLowerCase st it = true)
        (pinned_entries (Renderer.clipboardHistory st)
           ++ unpinned_entries (Renderer.clipboardHistory st)).
Proof.
  intros Hnewest.
  assert (Renderer.sort Renderer.compare (Renderer.clipboardHistory st)
          = pinned_entries (Renderer.clipboardHistory st)
              ++ unpinned_entries (Renderer.clipboardHistory st)) as Hsort.
  { apply (StronglySorted_unique_strong in_display_order).
    - intros x y Hx Hy Hxy Hyx.
      rewrite sort_Permutation in Hx. rewrite pinned_unpinned_Permutation in Hy.
      apply (timestamps_injective _ x y Hnewest Hx Hy).
      destruct Hxy as [[Hpx Hpy]|[Hp Hxy]], Hyx as [[Hpy' Hpx']|[Hp' Hyx]];
        try congruence; lia.
    - apply sort_StronglySorted.
    - by apply newest_first_display_order.
    - by rewrite sort_Permutation, pinned_unpinned_Permutation. }
  split; [done|]. unfold Renderer.getFilteredHistory. by rewrite Hsort.
Qed.

Lemma sort_of_recent_history_witness :
  Renderer.sort Renderer.compare (clipboardHistory two_texts)
  = [item.mk 10 "A" Text 10 1 true; item.mk 20 "B" Text 20 1 false].
Proof.
  destruct (sort_of_recent_history (fun s => s)
              (Renderer.set_history (clipboardHistory two_texts) 2
                 Renderer.initial)) as [Hsort _].
  - apply (bool_decide_unpack _). vm_compute. exact I.
  - exact Hsort.
Defined.

Lemma elem_of_getFilteredHistory toLowerCase st it :
  it ∈ Renderer.getFilteredHistory toLowerCase st <->
  it ∈ Renderer.clipboardHistory st /\ Renderer.shown toLowerCase st it = true.
Proof.
  unfold Renderer.getFilteredHistory.
  rewrite list_elem_of_filter, sort_Permutation. tauto.
Qed.

(** X21. When a message of the main process brings a history longer than
    the one the renderer held, the renderer shows the toast "hidden by
    filter" exactly when the first entry of the new history is not in the
    list it shows: the three tests behind the toast agree with the filter of
    [getFilteredHistory]. With a history that is not longer (a promotion, an
    external clear) there is no toast. *)
Theorem hidden_notice_matches_filter toLowerCase data st :
  let st' := (Renderer.onClipboardUpdate toLowerCase data st).1 in
  (Renderer.onClipboardUpdate toLowerCase data st).2 = true <->
  (length (Renderer.clipboardHistory st) < length (update.history data))%nat /\
  exists newest,
    update.history data !! 0%nat = Some newest /\
    newest ∉ Renderer.getFilteredHistory toLowerCase st'.
Proof.
  intros st'. subst st'. unfold Renderer.onClipboardUpdate. simpl.
  set (st' := Renderer.renderHistoryList _).
  assert (forall newest,
            update.history data !! 0%nat = Some newest ->
            (newest ∉ Renderer.getFilteredHistory toLowerCase st' <->
             Renderer.shown toLowerCase st' newest = false)) as Hshown.
  { intros newest Hnewest. rewrite elem_of_getFilteredHistory.
    assert (newest ∈ Renderer.clipboardHistory st') as Hin.
    { apply list_elem_of_lookup. by exists 0%nat. }
    destruct (Renderer.shown toLowerCase st' newest); split; try done.
    - intros Hnot. destruct Hnot. done.
    - intros _ [_ Hfalse]. discriminate Hfalse. }
  case_bool_decide as Hnew; simpl;
    [|split; [done|intros [Hlt _]; by destruct Hnew]].
  destruct (update.history data !! 0%nat) as [newest|] eqn:Hnewest.
  2:{ destruct (_ || _); (split; [done|]);
        intros (_ & newest & Hsome & _); discriminate Hsome. }
  specialize (Hshown newest eq_refl).
  assert ((truthy (Renderer.searchTerm st)
           || negb (bool_decide (Renderer.filterType st = Renderer.All))) &&
          (match Renderer.filterType st with
           | Renderer.Only type => negb (bool_decide (item.type newest = type))
           | Renderer.All => false
           end
           || truthy (Renderer.searchTerm st)
              && bool_decide (item.type newest = Text)
              && negb (Renderer.includes (toLowerCase (item.content newest))
                         (toLowerCase (Renderer.searchTerm st)))
           || truthy (Renderer.searchTerm st)
              && bool_decide (item.type newest = Image))
          = negb (Renderer.shown toLowerCase st' newest)) as Hnotice.
  { unfold Renderer.shown. subst st'. simpl.
    destruct (Renderer.filterType st) as [|type];
      destruct (truthy (Renderer.searchTerm st));
      destruct (item.type newest);
      try destruct type;
      by destruct (Renderer.includes _ _). }
  destruct (truthy (Renderer.searchTerm st)
            || negb (bool_decide (Renderer.filterType st = Renderer.All)))
    eqn:Hfiltering; simpl in *.
  - rewrite Hnotice, negb_true_iff. split.
    + intros Hhidden. split; [done|]. exists newest. by rewrite Hshown.
    + intros (_ & newest' & [= <-] & Hhidden). by apply Hshown.
  - split; [done|]. intros (_ & newest' & [= <-] & Hhidden).
    apply Hshown in Hhidden. symmetry in Hnotice.
    apply negb_false_iff in Hnotice. congruence.
Qed.

Lemma hidden_notice_matches_filter_witness :
  (Renderer.onClipboardUpdate (fun s => s)
     (update.mk [item.mk 30 "C" Image 30 1 false; item.mk 20 "B" Text 20 1 false]
        (Some "C"%string) (Some Image) 2)
     (Renderer.set_filterType (Renderer.Only Text)
        (Renderer.set_history [item.mk 20 "B" Text 20 1 false] 1
           Renderer.initial))).2 = true.
Proof.
  apply hidden_notice_matches_filter. split; [simpl; lia|].
  exists (item.mk 30 "C" Image 30 1 false). split; [reflexivity|].
  rewrite elem_of_getFilteredHistory. intros [_ Hshown]. discriminate Hshown.
Defined.

(** ** The selection *)

Lemma updateSelection_ok toLowerCase newIndex st :
  Renderer.selection_ok toLowerCase st ->
  Renderer.selection_ok toLowerCase
    (Renderer.updateSelection toLowerCase newIndex st).
Proof.
  intros Hok. unfold Renderer.updateSelection.
  case_bool_decide as Hempty; [done|].
  right. unfold Renderer.selection_ok. simpl.
  change (Renderer.getFilteredHistory toLowerCase (Renderer.set_selectedIndex _ st))
    with (Renderer.getFilteredHistory toLowerCase st).
  destruct (Z.ltb_spec newIndex 0);
    destruct (Z.leb_spec (Z.of_nat (length (Renderer.getFilteredHistory toLowerCase st))) 0);
    destruct (Z.leb_spec (Z.of_nat (length (Renderer.getFilteredHistory toLowerCase st))) newIndex);
    lia.
Qed.

Lemma rendered_selection_ok toLowerCase st :
  Renderer.selection_ok toLowerCase (Renderer.renderHistoryList st).
Proof. by left. Qed.

Lemma step_selection_ok toLowerCase e st :
  Renderer.selection_ok toLowerCase st ->
  Renderer.selection_ok toLowerCase (Renderer.step toLowerCase e st).
Proof.
  intros Hok. destruct e as [k focused|value| |type|data|r|r|result|it r]; simpl.
  - destruct k as [| | |d]; simpl.
    + by apply updateSelection_ok.
    + destruct (Renderer.selectedIndex st <=? 0); simpl;
        [by left|by apply updateSelection_ok].
    + by destruct (negb focused && (0 <=? Renderer.selectedIndex st)).
    + by destruct (negb focused).
  - apply rendered_selection_ok.
  - apply rendered_selection_ok.
  - unfold Renderer.handleFilterClick. case_decide; [done|].
    apply rendered_selection_ok.
  - apply rendered_selection_ok.
  - unfold Renderer.take_reply. destruct (reply.success r); [|done].
    destruct (reply.history r), (reply.memoryUsage r); try done.
    apply rendered_selection_ok.
  - unfold Renderer.clearAllHistory. destruct (reply.success r); [|done].
    destruct (reply.memoryUsage r); [|done]. apply rendered_selection_ok.
  - apply rendered_selection_ok.
  - by destruct (reply.success r).
Qed.

(** X22. The selection of the renderer is always on no entry (index -1) or
    on an entry of the list shown, whatever keys are pressed and whatever
    messages and replies arrive: every change of the list shown resets the
    selection, and the arrow keys keep it within the list. So the Enter key,
    pressed with an entry selected and the search box not focused, always
    asks for the copy of an entry shown, the one at the index selected. *)
Theorem selection_stays_on_list toLowerCase events st :
  Renderer.selection_ok toLowerCase st ->
  let st' := foldl (fun st e => Renderer.step toLowerCase e st) st events in
  Renderer.selection_ok toLowerCase st' /\
  (0 <= Renderer.selectedIndex st' ->
   exists it,
     (Renderer.keydown toLowerCase Renderer.Enter false st').2 = Some it /\
     Renderer.getFilteredHistory toLowerCase st'
       !! Z.to_nat (Renderer.selectedIndex st') = Some it /\
     it ∈ Renderer.clipboardHistory st').
Proof.
  intros Hok st'.
  assert (Renderer.selection_ok toLowerCase st') as Hok'.
  { subst st'. revert st Hok. induction events as [|e events IH];
      intros st Hok; [done|].
    simpl. apply IH. by apply step_selection_ok. }
  split; [done|]. intros Hselected.
  destruct Hok' as [Hnone|Hrange]; [lia|].
  destruct (lookup_lt_is_Some_2 (Renderer.getFilteredHistory toLowerCase st')
              (Z.to_nat (Renderer.selectedIndex st'))) as [it Hit]; [lia|].
  exists it. split; [|split; [done|]].
  - simpl. unfold Renderer.selectAndCopy.
    destruct (Z.leb_spec 0 (Renderer.selectedIndex st')); [|lia].
    destruct (Z.ltb_spec (Renderer.selectedIndex st') 0); [lia|].
    destruct (Z.leb_spec
                (Z.of_nat (length (Renderer.getFilteredHistory toLowerCase st')))
                (Renderer.selectedIndex st')); [lia|].
    done.
  - apply (elem_of_getFilteredHistory toLowerCase).
    apply list_elem_of_lookup. eauto.
Qed.

Lemma selection_stays_on_list_witness :
  Renderer.selection_ok (fun s => s)
    (foldl (fun st e => Renderer.step (fun s => s) e st) Renderer.initial
       [Renderer.Loaded (get_clipboard_history two_texts);
        Renderer.KeyDown Renderer.ArrowDown true;
        Renderer.KeyDown Renderer.ArrowDown false;
        Renderer.KeyDown Renderer.ArrowDown false]).
Proof.
  apply (selection_stays_on_list (fun s => s)). by left.
Defined.

(** ** Timestamps *)

(** X23. What [formatTimestamp] says, by the age of the timestamp in
    milliseconds: "Just now" below one minute, also for a timestamp ahead of
    the clock; from 1 to 59 minutes; "1 hour ago", then from 2 to 23 hours;
    "Yesterday" from 24 to 48 hours; from 2 to 6 days; and the date from
    seven days on. No label has a count of 0, and none says "1 days". *)
Theorem formatTimestamp_labels toLocaleDateString timestamp now :
  let age := now - timestamp in
  let label := Renderer.formatTimestamp toLocaleDateString timestamp now in
  (age < 60000 -> label = "Just now"%string) /\
  (60000 <= age < 3600000 ->
   label = (pretty (age / 60000) +:+ " min ago")%string /\
   1 <= age / 60000 <= 59) /\
  (3600000 <= age < 7200000 -> label = "1 hour ago"%string) /\
  (7200000 <= age < 86400000 ->
   label = (pretty (age / 3600000) +:+ " hours ago")%string /\
   2 <= age / 3600000 <= 23) /\
  (86400000 <= age < 172800000 -> label = "Yesterday"%string) /\
  (172800000 <= age < 604800000 ->
   label = (pretty (age / 86400000) +:+ " days ago")%string /\
   2 <= age / 86400000 <= 6) /\
  (604800000 <= age -> label = toLocaleDateString timestamp).
Proof.
  intros age label. subst label. unfold Renderer.formatTimestamp.
  fold age.
  pose proof (Z.div_mod age 60000 ltac:(lia)) as Hm.
  pose proof (Z.mod_pos_bound age 60000 ltac:(lia)) as Hm'.
  pose proof (Z.div_mod age 3600000 ltac:(lia)) as Hh.
  pose proof (Z.mod_pos_bound age 3600000 ltac:(lia)) as Hh'.
  pose proof (Z.div_mod age 86400000 ltac:(lia)) as Hd.
  pose proof (Z.mod_pos_bound age 86400000 ltac:(lia)) as Hd'.
  set (mins := age / 60000) in *.
  set (hours := age / 3600000) in *.
  set (days := age / 86400000) in *.
  destruct (Z.ltb_spec mins 1), (Z.ltb_spec mins 60), (Z.ltb_spec hours 24),
    (Z.ltb_spec 1 hours), (Z.eqb_spec days 1), (Z.ltb_spec days 7);
    repeat split; intros; try lia; try done.
  all: assert (hours = 1) as -> by lia; reflexivity.
Qed.

Lemma formatTimestamp_labels_witness :
  Renderer.formatTimestamp (fun _ => "1/1/1970"%string) 0 7200000
    = "2 hours ago"%string /\
  Renderer.formatTimestamp (fun _ => "1/1/1970"%string) 5000 0
    = "Just now"%string.
Proof.
  destruct (formatTimestamp_labels (fun _ => "1/1/1970"%string) 0 7200000)
    as (_ & _ & _ & Hhours & _).
  destruct (formatTimestamp_labels (fun _ => "1/1/1970"%string) 5000 0)
    as (Hnow & _).
  destruct Hhours as [Hlabel _]; [lia|].
  split; [by rewrite Hlabel|]. apply Hnow. lia.
Defined.

(** * The renderer and the main process *)

Lemma tick_delivers t_stamp t_id main :
  mainWindow main = true ->
  (sent (tick t_stamp t_id main) = sent main /\
   clipboardHistory (tick t_stamp t_id main) = clipboardHistory main) \/
  exists u,
    sent (tick t_stamp t_id main) = u :: sent main /\
    update.history u = clipboardHistory (tick t_stamp t_id main) /\
    update.memoryUsage u
      = sum_of_sizes (clipboardHistory (tick t_stamp t_id main)).
Proof.
  intros Hwindow.
  assert (forall content type st,
            mainWindow st = true -> sent st = sent main ->
            exists u,
              sent (addToHistory content type t_stamp t_id st)
                = u :: sent main /\
              update.history u
                = clipboardHistory (addToHistory content type t_stamp t_id st) /\
              update.memoryUsage u
                = sum_of_sizes
                    (clipboardHistory
                       (addToHistory content type t_stamp t_id st)))
    as Hinsert.
  { intros content type st Hw Hsent. unfold addToHistory. simpl.
    rewrite Hw. simpl. eexists. split; [by rewrite Hsent|].
    split; [done|]. apply getMemoryUsage_sum. }
  destruct (decide (readText (clipboard main) = ""%string)) as [Htext|Htext].
  - destruct (isEmpty (readImage (clipboard main))) eqn:Himage.
    + rewrite tick_empty by done.
      destruct (lastClipboardContent main); [|by left].
      simpl. rewrite Hwindow. right. eexists. split; [done|].
      split; [done|]. apply getMemoryUsage_sum.
    + rewrite tick_image by done.
      destruct (toDataURL (readImage (clipboard main))) as [d|]; [|by left].
      case_decide; [right|by left]. by apply Hinsert.
  - rewrite tick_text by done. case_decide; [by left|right].
    by apply Hinsert.
Qed.

Lemma filter_same_length {A} (P : A -> Prop) `{forall x, Decision (P x)}
    (l : list A) :
  length (filter P l) = length l -> filter P l = l.
Proof.
  induction l as [|x l IH]; [done|].
  rewrite filter_cons. case_decide; simpl.
  - intros [= Hlen]. by rewrite IH.
  - intros Hlen. pose proof (length_filter P l). lia.
Qed.

Lemma take_reply_in_sync r main st :
  (if reply.success r
   then reply.history r = Some (clipboardHistory main) /\
        reply.memoryUsage r = Some (getMemoryUsage (clipboardHistory main))
   else in_sync main st) ->
  in_sync main (Renderer.take_reply r st).
Proof.
  unfold Renderer.take_reply. destruct (reply.success r); [|done].
  intros [-> ->]. split; [done|]. simpl. apply getMemoryUsage_sum.
Qed.

(** X24. The renderer keeps the history of the main process. Once the two
    agree (as they do after [loadClipboardHistory]), they agree again after
    a turn of the poller whose message is delivered, after a deletion, a pin
    toggle or a clear asked by the renderer and answered by the main
    process: the messages and the replies carry the whole history and its
    memory usage, and a request that changes nothing leaves both as they
    were. *)
Theorem renderer_stays_in_sync toLowerCase main r :
  in_sync main
    (Renderer.loadClipboardHistory (get_clipboard_history main) r) /\
  (in_sync main r ->
   (mainWindow main = true ->
    forall t_stamp t_id,
      in_sync (poll toLowerCase t_stamp t_id main r).1
        (poll toLowerCase t_stamp t_id main r).2) /\
   (forall itemId,
      in_sync (Renderer.deleteHistoryItem delete_history_item itemId main r).1
        (Renderer.deleteHistoryItem delete_history_item itemId main r).2) /\
   (forall itemId,
      in_sync (Renderer.togglePinItem toggle_pin_item itemId main r).1
        (Renderer.togglePinItem toggle_pin_item itemId main r).2) /\
   in_sync (Renderer.clearAllHistory clear_history main r).1
     (Renderer.clearAllHistory clear_history main r).2).
Proof.
  split.
  - unfold in_sync, Renderer.loadClipboardHistory. simpl.
    destruct (clipboardHistory main !! 0%nat); simpl;
      (split; [done|apply getMemoryUsage_sum]).
  - intros Hsync. split; [|split; [|split]].
    + intros Hwindow t_stamp t_id. unfold poll. cbn [fst snd].
      destruct (tick_delivers t_stamp t_id main Hwindow)
        as [[Hsent Hsame]|(u & Hsent & Hhistory & Husage)].
      * rewrite Hsent, Nat.sub_diag, take_0. cbn [foldr].
        unfold in_sync. rewrite Hsame. exact Hsync.
      * rewrite Hsent. cbn [length].
        replace (S (length (sent main)) - length (sent main))%nat
          with 1%nat by lia.
        cbn [take foldr]. split; [exact Hhistory|exact Husage].
    + intros itemId. unfold Renderer.deleteHistoryItem.
      destruct (list_find _ _) as [found|]; [|done].
      unfold delete_history_item. simpl.
      apply take_reply_in_sync. simpl.
      case_bool_decide as Hdeleted; [done|].
      assert (filter (fun it => item.id it <> itemId) (clipboardHistory main)
              = clipboardHistory main) as Hsame.
      { apply filter_same_length. by symmetry. }
      destruct Hsync as [Hh Hu]. split; simpl; by rewrite Hsame.
    + intros itemId. unfold Renderer.togglePinItem.
      destruct (toggle_pin_item itemId main) as [reply main'] eqn:Htoggle.
      simpl. apply take_reply_in_sync.
      unfold toggle_pin_item in Htoggle.
      destruct (list_find _ _) as [[i it]|]; injection Htoggle as <- <-;
        simpl; done.
    + unfold Renderer.clearAllHistory. simpl. done.
Qed.

Lemma renderer_stays_in_sync_witness :
  in_sync
    (Renderer.deleteHistoryItem delete_history_item 20 two_texts
       (Renderer.loadClipboardHistory (get_clipboard_history two_texts)
          Renderer.initial)).1
    (Renderer.deleteHistoryItem delete_history_item 20 two_texts
       (Renderer.loadClipboardHistory (get_clipboard_history two_texts)
          Renderer.initial)).2.
Proof.
  apply (renderer_stays_in_sync (fun s => s)).
  apply (renderer_stays_in_sync (fun s => s)).
Defined.

(** * More on the main process *)

(** X25. In a state the process can be in, copying a content that the
    history already holds evicts nothing: the total does not change, so the
    history after [addToHistory] is exactly the entry of that content, with
    its new timestamp and id, followed by the other entries in their
    order. *)
Theorem promotion_never_evicts content type t_stamp t_id st before existing after :
  reachable st ->
  clipboardHistory st = before ++ existing :: after ->
  item.content existing = content ->
  clipboardHistory (addToHistory content type t_stamp t_id st) =
  item.mk t_id content (item.type existing) t_stamp (item.size existing)
    (item.pinned existing) :: before ++ after.
Proof.
  intros Hreach Hh Hcontent.
  destruct (reachable_store_ok st Hreach) as (_ & Hdistinct & Hfit).
  rewrite addToHistory_history, Hh in *.
  assert (Forall (fun it => item.content it <> content) before) as Hbefore.
  { unfold contents_distinct in Hdistinct.
    rewrite fmap_app, fmap_cons in Hdistinct.
    apply NoDup_app in Hdistinct as (_ & Hdisj & _).
    apply Forall_forall. intros x Hx Heq.
    apply (Hdisj (item.content x)); [by apply list_elem_of_fmap_2|].
    rewrite Heq, <- Hcontent. apply list_elem_of_here. }
  rewrite (unshifted_present _ _ _ _ _ (length before) existing)
    by (by apply list_find_first).
  rewrite delete_middle. unfold item.set_id, item.set_timestamp. simpl.
  rewrite Hcontent. apply enforceMemoryLimit_within.
  rewrite getMemoryUsage_app, getMemoryUsage_cons in Hfit.
  rewrite getMemoryUsage_cons, getMemoryUsage_app. simpl. lia.
Qed.

Lemma promotion_never_evicts_witness :
  clipboardHistory (addToHistory "A" Image 31 30 two_texts) =
  [item.mk 30 "A" Text 31 1 true; item.mk 20 "B" Text 20 1 false].
Proof.
  apply (promotion_never_evicts "A" Image 31 30 two_texts
           [item.mk 20 "B" Text 20 1 false]
           (item.mk 10 "A" Text 10 1 true) []).
  - apply two_texts_reachable.
  - reflexivity.
  - reflexivity.
Defined.

(** X26. After a turn of the poller, the current content that
    ['get-clipboard-history'] reports is what the clipboard held at the
    turn: its text when it has text, [null] when it has neither text nor
    image, the data URL of its image when it has no text and the URL is not
    empty. Only when the image cannot be converted, or converts to the empty
    string, does the report stay what it was. *)
Theorem current_content_follows_clipboard t_stamp t_id st :
  let current :=
    snapshot.currentContent (get_clipboard_history (tick t_stamp t_id st)) in
  let text := readText (clipboard st) in
  let image := readImage (clipboard st) in
  (text <> ""%string -> current = Some text) /\
  (text = ""%string -> isEmpty image = true -> current = None) /\
  (forall imageData,
     text = ""%string -> isEmpty image = false ->
     toDataURL image = Some imageData -> imageData <> ""%string ->
     current = Some imageData) /\
  (text = ""%string -> isEmpty image = false ->
   toDataURL image = None \/ toDataURL image = Some ""%string ->
   current = lastClipboardContent st).
Proof.
  intros current text image. subst current text image. simpl.
  split; [|split; [|split]].
  - intros Htext. rewrite tick_text by done. case_decide as Hlast; [done|].
    by rewrite (proj2 (addToHistory_clipboard _ _ _ _ _)).
  - intros Htext Himage. rewrite tick_empty by done.
    destruct (lastClipboardContent st) eqn:Hlast; [|done].
    simpl. by destruct (mainWindow st).
  - intros imageData Htext Himage Hurl Hdata.
    rewrite tick_image by done. rewrite Hurl.
    case_decide as Hnew.
    + by rewrite (proj2 (addToHistory_clipboard _ _ _ _ _)).
    + destruct (decide (lastClipboardContent st = Some imageData));
        [done|]. destruct Hnew. done.
  - intros Htext Himage [Hurl|Hurl]; rewrite tick_image by done;
      rewrite Hurl; [done|].
    by rewrite decide_False by (by intros [? _]).
Qed.

Lemma current_content_follows_clipboard_witness :
  snapshot.currentContent
    (get_clipboard_history
       (tick 30 30
          (set_clipboard {| readText := "C"; readImage := EmptyImage |}
             two_texts))) = Some "C"%string.
Proof.
  destruct (current_content_follows_clipboard 30 30
              (set_clipboard {| readText := "C"; readImage := EmptyImage |}
                 two_texts)) as [Htext _].
  apply Htext. simpl. discriminate.
Defined.
